(** * MediTrack AI server: dashboard aggregation, bulk export, bulk import
      and the connection supervisor of [server.js]

    The development follows the source file top-down.  JavaScript values
    that travel through the handlers are JSON documents; the objects the
    handlers use as dictionaries ([results], [exportData]) are finite maps
    keyed by table name; the MySQL driver is the environment: it answers
    every query either with an error or with rows, and calls each callback
    it was given. *)

From stdpp Require Import base option list strings gmap numbers.

Local Open Scope string_scope.
Local Open Scope list_scope.

(** ** JavaScript values *)

Module Js.

(** A parsed JSON document.  The code below only ever tests a number for
    being zero or positive, so integers stand in for the numbers: a
    fraction behaves as any non-zero integer of its sign.  [members] lists
    the own properties of a parsed object (one binding per key, as
    [JSON.parse] leaves them). *)
#[warnings="-register-all"]
Inductive json : Type :=
| JNull
| JBool (b : bool)
| JNum (n : Z)
| JStr (s : string)
| JArr (items : list json)
| JObj (members : list (string * json)).

(** A JavaScript value as the handlers see it: a JSON value, or
    [undefined] when a property is missing. *)
Abbreviation value := (option json).
Abbreviation undefined := (@None json).

Inductive exception : Type :=
| TypeError (msg : string).

(** An [Error] object as the database driver raises them. *)
Record error : Type := { code : option string; message : string }.

(** Completion of a JavaScript expression: a value or a thrown exception. *)
Inductive completion (A : Type) : Type :=
| Return (a : A)
| Throw (e : exception).
Arguments Return {A} a.
Arguments Throw {A} e.

#[global] Instance completion_ret : MRet completion := @Return.
#[global] Instance completion_bind : MBind completion := λ A B k c,
  match c with
  | Return a => k a
  | Throw e => Throw e
  end.

(** ToBoolean, as applied by [if (v)], [!v] and [v || w]. *)
Definition truthy (v : value) : bool :=
  match v with
  | None => false
  | Some JNull => false
  | Some (JBool b) => b
  | Some (JNum n) => negb (n =? 0)%Z
  | Some (JStr s) => negb (String.eqb s "")
  | Some (JArr _) => true
  | Some (JObj _) => true
  end.

(** Own property of a parsed object. *)
Fixpoint assoc (k : string) (members : list (string * json)) : value :=
  match members with
  | [] => undefined
  | (k', v) :: rest => if String.eqb k k' then Some v else assoc k rest
  end.

(** [v.k] for the property names this program reads off request documents
    ([data], [medications], [name], [dosage], [frequency], [time],
    [taken]): none of them is an index, [length], or defined on a built-in
    prototype, so only an object can have one.  Reading a property of
    [null] throws. *)
Definition prop (k : string) (v : json) : completion value :=
  match v with
  | JNull =>
      Throw (TypeError ("Cannot read properties of null (reading '" +:+ k +:+ "')"))
  | JObj members => Return (assoc k members)
  | JBool _ | JNum _ | JStr _ | JArr _ => Return undefined
  end.

(** [a || b] *)
Definition or_else (a b : value) : value := if truthy a then a else b.

(** [JSON.stringify] of an object literal leaves out the properties whose
    value is [undefined]. *)
Fixpoint object_literal (fields : list (string * value)) : list (string * json) :=
  match fields with
  | [] => []
  | (k, Some v) :: rest => (k, v) :: object_literal rest
  | (_, None) :: rest => object_literal rest
  end.

(** State of a promise; the first settlement wins, later calls of
    [resolve] and [reject] do nothing. *)
Inductive promise (A : Type) : Type :=
| Pending
| Fulfilled (a : A)
| Rejected (reason : error).
Arguments Pending {A}.
Arguments Fulfilled {A} a.
Arguments Rejected {A} reason.

Definition resolve {A} (a : A) (p : promise A) : promise A :=
  match p with Pending => Fulfilled a | _ => p end.

Definition reject {A} (reason : error) (p : promise A) : promise A :=
  match p with Pending => Rejected reason | _ => p end.

(** An HTTP response: [res.status(n).json(body)]; [res.json] alone
    answers with status 200. *)
Record response (B : Type) : Type := { status : nat; body : B }.
Arguments status {B} r.
Arguments body {B} r.

End Js.

Import Js.

(** ** The database driver, seen from the handlers *)

Module Db.

Inductive table : Type := Medications | Reminders | Vitals | Appointments.

#[global] Instance table_eq_dec : EqDecision table.
Proof. solve_decision. Defined.

(** The property name of a table in [queries], [results], [exportQueries],
    [exportData]. *)
Definition key (t : table) : string :=
  match t with
  | Medications => "medications"
  | Reminders => "reminders"
  | Vitals => "vitals"
  | Appointments => "appointments"
  end.

(** [Object.keys(queries)] and [Object.keys(exportQueries)]: the four
    tables, in the order the literals list them. *)
Definition tables : list table := [Medications; Reminders; Vitals; Appointments].

(** What the driver hands to a query callback [(err, results)]. *)
Inductive answer : Type :=
| Failed (err : error)
| Rows (rows : list json).

End Db.

Import Db.

(** ** Dashboard aggregator: [getDashboardStats] and [GET /api/dashboard-stats] *)

Module Aggregator.

(** The value [resolve] is called with. *)
Record stats : Type := {
  medications : value;
  reminders : value;
  vitals : value;
  appointments : value;
  lastUpdated : string
}.

(** The closure state of one call of [getDashboardStats]: the [results]
    object, the counter, the promise under construction, and the exceptions
    that escaped a query callback. *)
Record state : Type := {
  results : gmap string (list json);
  completedQueries : nat;
  settled : promise stats;
  uncaught : list exception
}.

Definition initial : state :=
  {| results := ∅; completedQueries := 0; settled := Pending; uncaught := [] |}.

(** [Object.keys(queries).length] *)
Definition totalQueries : nat := length tables.

(** The row each callback stores when its query fails. *)
Definition fallback (t : table) : json :=
  match t with
  | Medications => JObj [("total", JNum 0); ("taken", JNum 0)]
  | Reminders => JObj [("total", JNum 0); ("today", JNum 0); ("upcoming", JNum 0)]
  | Vitals => JObj [("total", JNum 0)]
  | Appointments => JObj [("total", JNum 0); ("upcoming", JNum 0)]
  end.

(** [results.k[0]]: indexing [undefined] throws, indexing an array past its
    end gives [undefined]. *)
Definition first_of (k : string) (results : gmap string (list json)) : completion value :=
  match results !! k with
  | None => Throw (TypeError "Cannot read properties of undefined (reading '0')")
  | Some rows => Return (head rows)
  end.

(** The object literal passed to [resolve]; [now] is what
    [new Date().toISOString()] evaluates to at that moment. *)
Definition snapshot (now : string) (results : gmap string (list json)) : completion stats :=
  m ← first_of "medications" results;
  r ← first_of "reminders" results;
  v ← first_of "vitals" results;
  a ← first_of "appointments" results;
  mret {| medications := m; reminders := r; vitals := v; appointments := a;
          lastUpdated := now |}.

Definition checkCompletion (now : string) (s : state) : state :=
  let n := S (completedQueries s) in
  if decide (n = totalQueries) then
    match snapshot now (results s) with
    | Return st =>
        {| results := results s; completedQueries := n;
           settled := resolve st (settled s); uncaught := uncaught s |}
    | Throw e =>
        {| results := results s; completedQueries := n;
           settled := settled s; uncaught := uncaught s ++ [e] |}
    end
  else
    {| results := results s; completedQueries := n;
       settled := settled s; uncaught := uncaught s |}.

(** The four callbacks handed to [db.query]; they differ in the key they
    write and in the fallback row. *)
Definition stored_rows (t : table) (a : answer) : list json :=
  match a with
  | Failed _ => [fallback t]
  | Rows rows => rows
  end.

Definition callback (t : table) (a : answer) (now : string) (s : state) : state :=
  checkCompletion now
    {| results := <[key t := stored_rows t a]> (results s);
       completedQueries := completedQueries s;
       settled := settled s; uncaught := uncaught s |}.

(** One run of [getDashboardStats].  The executor issues the four queries;
    [answers] is what the driver answers to each, [schedule] is the order
    in which it calls the callbacks back, each with the clock reading at
    that moment. *)
Definition getDashboardStats (answers : table -> answer)
    (schedule : list (table * string)) : state :=
  foldl (λ s ev, callback ev.1 (answers ev.1) ev.2 s) initial schedule.

(** The property of the snapshot that belongs to a table. *)
Definition summary (t : table) (st : stats) : value :=
  match t with
  | Medications => medications st
  | Reminders => reminders st
  | Vitals => vitals st
  | Appointments => appointments st
  end.

(** [res.json(stats)] *)
Definition stats_json (st : stats) : json :=
  JObj (object_literal
    [("medications", medications st); ("reminders", reminders st);
     ("vitals", vitals st); ("appointments", appointments st);
     ("lastUpdated", Some (JStr (lastUpdated st)))]).

(** The route handler: [await getDashboardStats()], then [res.json] or the
    [catch] branch.  While the promise is pending nothing is sent. *)
Definition dashboard_stats (answers : table -> answer)
    (schedule : list (table * string)) : option (response json) :=
  match settled (getDashboardStats answers schedule) with
  | Fulfilled st => Some {| status := 200; body := stats_json st |}
  | Rejected err =>
      Some {| status := 500;
              body := JObj [("error", JStr "Failed to fetch dashboard statistics");
                            ("details", JStr (message err))] |}
  | Pending => None
  end.

End Aggregator.

(** ** Bulk exporter: [GET /api/export-data] *)

Module Exporter.

(** The object handed to [res.json]. *)
Record document : Type := {
  success : bool;
  exportedAt : string;
  data : gmap string json
}.

(** The closure state of one request: [exportData], the counter, and the
    response once [res.json] has been called. *)
Record state : Type := {
  exportData : gmap string json;
  completedQueries : nat;
  sent : option (response document)
}.

Definition initial : state :=
  {| exportData := ∅; completedQueries := 0; sent := None |}.

(** [Object.keys(exportQueries).length] *)
Definition totalQueries : nat := length tables.

Definition checkCompletion (now : string) (s : state) : state :=
  let n := S (completedQueries s) in
  if decide (n = totalQueries) then
    {| exportData := exportData s; completedQueries := n;
       sent := Some {| status := 200;
                       body := {| success := true; exportedAt := now;
                                  data := exportData s |} |} |}
  else
    {| exportData := exportData s; completedQueries := n; sent := sent s |}.

(** What the callback stores under [exportData[table]]. *)
Definition entry (a : answer) : json :=
  match a with
  | Failed err => JObj [("error", JStr (message err))]
  | Rows rows => JArr rows
  end.

(** The callback the [forEach] hands to [db.query] for [table]. *)
Definition callback (t : table) (a : answer) (now : string) (s : state) : state :=
  checkCompletion now
    {| exportData := <[key t := entry a]> (exportData s);
       completedQueries := completedQueries s; sent := sent s |}.

(** One request: the [forEach] issues one query per key of
    [exportQueries]; the driver calls the callbacks back in the order of
    [schedule]. *)
Definition export_data (answers : table -> answer)
    (schedule : list (table * string)) : state :=
  foldl (λ s ev, callback ev.1 (answers ev.1) ev.2 s) initial schedule.

End Exporter.

(** ** Bulk importer: [POST /api/import-data] *)

Module Importer.

(** One element of [values]: the array
    [[med.name, med.dosage, med.frequency, med.time, med.taken || false]],
    bound positionally to the columns
    [(name, dosage, frequency, time, taken)] of the INSERT statement.  A
    stored medications row is the five values it was inserted with. *)
Record row : Type := {
  name : value;
  dosage : value;
  frequency : value;
  time : value;
  taken : value
}.

(** The four tables; the importer only ever touches the first. *)
Record database : Type := {
  medications : list row;
  reminders : list json;
  vitals : list json;
  appointments : list json
}.

(** The statements the handler sends to [db.query]. *)
Inductive query : Type :=
| DELETE_FROM_medications
| INSERT_INTO_medications (values : list row).

(** What the driver answers: the [err] argument of each callback.  A
    statement that fails leaves its table as it was. *)
Record driver : Type := {
  delete_err : option error;
  insert_err : option error
}.

Definition set_medications (rows : list row) (db : database) : database :=
  {| medications := rows; reminders := reminders db;
     vitals := vitals db; appointments := appointments db |}.

Definition run_delete (d : driver) (db : database) : database :=
  match delete_err d with
  | None => set_medications [] db
  | Some _ => db
  end.

Definition run_insert (d : driver) (values : list row) (db : database) : database :=
  match insert_err d with
  | None => set_medications (medications db ++ values) db
  | Some _ => db
  end.

(** [med => [med.name, med.dosage, med.frequency, med.time, med.taken || false]] *)
Definition to_values (med : json) : completion row :=
  n ← prop "name" med;
  d ← prop "dosage" med;
  f ← prop "frequency" med;
  t ← prop "time" med;
  k ← prop "taken" med;
  mret {| name := n; dosage := d; frequency := f; time := t;
          taken := or_else k (Some (JBool false)) |}.

(** [Array.prototype.map] with a callback that may throw. *)
Fixpoint map_values (meds : list json) : completion (list row) :=
  match meds with
  | [] => mret []
  | med :: rest =>
      r ← to_values med;
      rs ← map_values rest;
      mret (r :: rs)
  end.

(** State of the one import operation: its promise, the database, the
    statements sent so far, the exceptions that escaped a callback. *)
Record operation : Type := {
  promised : promise unit;
  db_now : database;
  sent : list query;
  uncaught : list exception
}.

Section Runtime.

(** [w > 0] when [w] is a string, an array or an object goes through the
    engine's ToPrimitive and StringToNumber, which are no part of the
    program: the engine's verdict is a parameter. *)
Variable coerced_gt_0 : json -> completion bool.

(** [w > 0] for a JSON value [w]. *)
Definition gt_0 (w : json) : completion bool :=
  match w with
  | JNull => Return false
  | JBool b => Return b
  | JNum n => Return (0 <? n)%Z
  | JStr _ | JArr _ | JObj _ => coerced_gt_0 w
  end.

(** [m.length > 0]: arrays and strings have a length, an object has one
    only as an own property, on numbers and booleans it is [undefined] and
    the comparison is false. *)
Definition length_gt_0 (m : json) : completion bool :=
  match m with
  | JNull => Throw (TypeError "Cannot read properties of null (reading 'length')")
  | JArr items => Return (bool_decide (0 < length items))
  | JStr s => Return (bool_decide (0 < String.length s))
  | JBool _ | JNum _ => Return false
  | JObj members =>
      match assoc "length" members with
      | None => Return false
      | Some w => gt_0 w
      end
  end.

(** [m.map(med => ...)]: only an array has a callable [map]. *)
Definition map_call (m : json) : completion (list row) :=
  match m with
  | JArr items => map_values items
  | _ => Throw (TypeError "data.medications.map is not a function")
  end.

(** The promise pushed for [data.medications]: the executor sends the
    DELETE; its callback rejects on an error and goes on in either case. *)
Definition import_medications (m : json) (d : driver) (db : database) : operation :=
  let db1 := run_delete d db in
  let p1 :=
    match delete_err d with
    | Some err => reject err Pending
    | None => Pending
    end in
  match length_gt_0 m with
  | Throw e =>
      {| promised := p1; db_now := db1; sent := [DELETE_FROM_medications];
         uncaught := [e] |}
  | Return false =>
      {| promised := resolve tt p1; db_now := db1;
         sent := [DELETE_FROM_medications]; uncaught := [] |}
  | Return true =>
      match map_call m with
      | Throw e =>
          {| promised := p1; db_now := db1; sent := [DELETE_FROM_medications];
             uncaught := [e] |}
      | Return values =>
          {| promised :=
               match insert_err d with
               | Some err => reject err p1
               | None => resolve tt p1
               end;
             db_now := run_insert d values db1;
             sent := [DELETE_FROM_medications; INSERT_INTO_medications values];
             uncaught := [] |}
      end
  end.

(** [Promise.all] over the final states of the promises: it rejects as
    soon as one of them does, and fulfils once all of them have. *)
Fixpoint promise_all (ps : list (promise unit)) : promise unit :=
  match ps with
  | [] => Fulfilled tt
  | Rejected err :: _ => Rejected err
  | Fulfilled _ :: rest => promise_all rest
  | Pending :: rest =>
      match promise_all rest with
      | Rejected err => Rejected err
      | _ => Pending
      end
  end.

(** What a request leaves behind. *)
Record outcome : Type := {
  reply : option (response json);
  db_after : database;
  statements : list query;
  escaped : list exception
}.

(** [importPromises] after [if (data.medications) { ... push ... }]. *)
Definition launch (data : json) (d : driver) (db : database)
  : completion (list operation) :=
  m ← prop "medications" data;
  match m with
  | Some mv =>
      if truthy m then mret [import_medications mv d db] else mret []
  | None => mret []
  end.

(** The [then] and [catch] branches after [Promise.all(importPromises)]. *)
Definition answer_all (p : promise unit) : option (response json) :=
  match p with
  | Fulfilled _ =>
      Some {| status := 200;
              body := JObj [("success", JBool true);
                            ("message", JStr "Data imported successfully")] |}
  | Rejected _ =>
      Some {| status := 500; body := JObj [("error", JStr "Failed to import data")] |}
  | Pending => None
  end.

(** The route handler, run on the parsed request body.  The operations
    work on the database one after the other; with the single operation
    the source launches, the database is left as that operation leaves
    it. *)
Definition import_data (req_body : json) (d : driver) (db : database) : outcome :=
  match prop "data" req_body with
  | Throw e =>
      {| reply := None; db_after := db; statements := []; escaped := [e] |}
  | Return data =>
      match data with
      | Some dv =>
          if truthy data then
            match launch dv d db with
            | Throw e =>
                {| reply := None; db_after := db; statements := []; escaped := [e] |}
            | Return importPromises =>
                {| reply := answer_all (promise_all (promised <$> importPromises));
                   db_after := foldl (λ _ op, db_now op) db importPromises;
                   statements := importPromises ≫= sent;
                   escaped := importPromises ≫= uncaught |}
            end
          else
            {| reply := Some {| status := 400;
                 body := JObj [("error", JStr "No data provided for import")] |};
               db_after := db; statements := []; escaped := [] |}
      | None =>
          {| reply := Some {| status := 400;
               body := JObj [("error", JStr "No data provided for import")] |};
             db_after := db; statements := []; escaped := [] |}
      end
  end.

End Runtime.

End Importer.

(** ** Connection supervisor: [db.on('error')], [connectWithRetry], [shutdown] *)

Module Supervisor.

(** What the process has done so far: how often [connectWithRetry] was
    called, and the exit code once [process.exit] has run. *)
Record process : Type := {
  connect_calls : nat;
  exit_code : option nat
}.

(** What the [error] listener ends with. *)
Inductive verdict : Type :=
| Reconnect
| Rethrow (err : error).

(** [err.code === 'PROTOCOL_CONNECTION_LOST' || err.code === 'ECONNRESET'] *)
Definition lost_connection (err : error) : bool :=
  match code err with
  | Some c => String.eqb c "PROTOCOL_CONNECTION_LOST" || String.eqb c "ECONNRESET"
  | None => false
  end.

Definition on_error (err : error) : verdict :=
  if lost_connection err then Reconnect else Rethrow err.

Definition connectWithRetry (p : process) : process :=
  {| connect_calls := S (connect_calls p); exit_code := exit_code p |}.

(** [shutdown()]: [db.end] calls back with [end_err], and the callback
    exits with 1 on an error and with 0 otherwise. *)
Definition shutdown (end_err : option error) (p : process) : process :=
  {| connect_calls := connect_calls p;
     exit_code := Some (match end_err with Some _ => 1 | None => 0 end) |}.

(** An [error] event of the connection.  What the listener throws reaches
    [process.on('uncaughtException')], which shuts down. *)
Definition error_event (err : error) (end_err : option error) (p : process) : process :=
  match on_error err with
  | Reconnect => connectWithRetry p
  | Rethrow _ => shutdown end_err p
  end.

End Supervisor.

(** ** Sample requests and driver behaviours *)

Module Scenario.

Import Importer.

(** A driver error as [mysql2] reports one. *)
Definition access_denied : error :=
  {| code := Some "ER_TABLEACCESS_DENIED_ERROR";
     message := "DELETE command denied to user" |}.

Definition connection_lost : error :=
  {| code := Some "PROTOCOL_CONNECTION_LOST";
     message := "Connection lost: The server closed the connection." |}.

Definition parse_error : error :=
  {| code := Some "ER_PARSE_ERROR"; message := "You have an error in your SQL syntax" |}.

(** The medications query fails, the other three return their one row. *)
Definition medications_down (t : table) : answer :=
  match t with
  | Medications => Failed access_denied
  | Reminders => Rows [JObj [("total", JNum 2); ("today", JNum 1); ("upcoming", JNum 1)]]
  | Vitals => Rows [JObj [("total", JNum 7)]]
  | Appointments => Rows [JObj [("total", JNum 3); ("upcoming", JNum 2)]]
  end.

(** The four callbacks, not in the order the queries were issued. *)
Definition shuffled : list (table * string) :=
  [(Reminders, "2025-01-01T08:00:00.010Z"); (Medications, "2025-01-01T08:00:00.011Z");
   (Appointments, "2025-01-01T08:00:00.012Z"); (Vitals, "2025-01-01T08:00:00.013Z")].

(** [{name: "Aspirin", dosage: "81mg", frequency: "daily", time: "08:00"}] *)
Definition aspirin : json :=
  JObj [("name", JStr "Aspirin"); ("dosage", JStr "81mg");
        ("frequency", JStr "daily"); ("time", JStr "08:00")].

Definition aspirin_row : row :=
  {| name := Some (JStr "Aspirin"); dosage := Some (JStr "81mg");
     frequency := Some (JStr "daily"); time := Some (JStr "08:00");
     taken := Some (JBool false) |}.

Definition ibuprofen_row : row :=
  {| name := Some (JStr "Ibuprofen"); dosage := Some (JStr "200mg");
     frequency := Some (JStr "twice daily"); time := Some (JStr "09:00");
     taken := Some (JBool true) |}.

(** [{data: {medications: meds}}] *)
Definition restore (meds : list json) : json :=
  JObj [("data", JObj [("medications", JArr meds)])].

(** A database with one medication on file. *)
Definition stocked : database :=
  {| medications := [ibuprofen_row]; reminders := []; vitals := []; appointments := [] |}.

Definition all_ok : driver := {| delete_err := None; insert_err := None |}.

(** The account may INSERT but not DELETE. *)
Definition delete_denied : driver :=
  {| delete_err := Some access_denied; insert_err := None |}.

Definition insert_fails : driver :=
  {| delete_err := None; insert_err := Some parse_error |}.

(** An engine that is never asked: none of the sample requests reaches a
    coercion. *)
Definition no_coercion (w : json) : completion bool := Return false.

End Scenario.

(** ** Error-handling middleware: [app.use((err, req, res, next) => ...)] *)

Module ErrorHandler.

(** What reaches the middleware: an error object and its [stack]. *)
Record failure : Type := { cause : error; stack : option string }.

(** [err.code === 'ECONNREFUSED' || err.code === 'PROTOCOL_CONNECTION_LOST'] *)
Definition unavailable (err : error) : bool :=
  match code err with
  | Some c => String.eqb c "ECONNREFUSED" || String.eqb c "PROTOCOL_CONNECTION_LOST"
  | None => false
  end.

(** [err.code && err.code.startsWith('ER_')]: an empty code is falsy. *)
Definition mysql_error (err : error) : bool :=
  match code err with
  | Some c => negb (String.eqb c "") && String.prefix "ER_" c
  | None => false
  end.

(** [process.env.NODE_ENV === 'development'] *)
Definition development (node_env : option string) : bool :=
  match node_env with
  | Some e => String.eqb e "development"
  | None => false
  end.

Definition handle (node_env : option string) (f : failure) : response json :=
  let err := cause f in
  if unavailable err then
    {| status := 503;
       body := JObj [("error", JStr "Database service unavailable");
                     ("message",
                      JStr "Please check your database connection and try again")] |}
  else if mysql_error err then
    {| status := 400;
       body := JObj (object_literal
                 [("error", Some (JStr "Database error"));
                  ("message", Some (JStr (message err)));
                  ("code", JStr <$> code err)]) |}
  else
    {| status := 500;
       body := JObj (object_literal
                 ([("error", Some (JStr "Internal server error"));
                   ("message",
                    Some (JStr (if development node_env then message err
                                else "Something went wrong!")))]
                  ++ (if development node_env
                      then [("stack", JStr <$> stack f)] else []))) |}.

End ErrorHandler.

(** ** Health check: [GET /health] *)

Module Health.

(** [db.state === 'connected' ? 'connected' : 'disconnected']; a driver
    object without a [state] property reads as [undefined]. *)
Definition connected (state : option string) : bool :=
  match state with
  | Some st => String.eqb st "connected"
  | None => false
  end.

(** The handler; [uptime] and [timestamp] are the readings of
    [process.uptime()] and [Date.now()]. *)
Definition health (uptime timestamp : Z) (state : option string) : response json :=
  {| status := 200;
     body := JObj [("uptime", JNum uptime); ("message", JStr "OK");
                   ("timestamp", JNum timestamp);
                   ("database",
                    JStr (if connected state then "connected" else "disconnected"))] |}.

End Health.

(** ** Process life cycle: connecting, retrying, the liveness poll, shutting down *)

Module Lifecycle.

Inductive signal : Type := SIGINT | SIGTERM.

(** What is pending in the event loop, and what has been done. *)
Record process : Type := {
  connecting : nat;        (* [db.connect] calls whose callback is due *)
  timers : list nat;       (* delays of the pending [setTimeout(connectWithRetry, _)] *)
  verifications : nat;     (* calls of [verifyTables] *)
  ending : nat;            (* [db.end] calls whose callback is due *)
  exited : option nat      (* the code [process.exit] was called with *)
}.

(** The events the process reacts to. *)
Inductive event : Type :=
| ConnectCallback (err : option error)   (* the callback of a [db.connect] *)
| RetryTimer                             (* a retry timer fires *)
| ConnectionError (err : error)          (* [db.on('error')] *)
| LivenessTick (state : option string)   (* the 30000 ms interval, with [db.state] *)
| Signal (sig : signal)
| UncaughtException
| UnhandledRejection
| EndCallback (err : option error)       (* the callback of a [db.end] *)
| ServerError (err : error).             (* [server.on('error')] *)

(** After the module has loaded: [connectWithRetry()] has been called once. *)
Definition started : process :=
  {| connecting := 1; timers := []; verifications := 0; ending := 0; exited := None |}.

Definition connectWithRetry (p : process) : process :=
  {| connecting := S (connecting p); timers := timers p;
     verifications := verifications p; ending := ending p; exited := exited p |}.

Definition shutdown (p : process) : process :=
  {| connecting := connecting p; timers := timers p;
     verifications := verifications p; ending := S (ending p); exited := exited p |}.

(** The callback given to [db.connect], with one connect fewer under way. *)
Definition connect_callback (err : option error) (under_way : nat) (p : process) : process :=
  match err with
  | Some _ =>
      {| connecting := under_way; timers := timers p ++ [5000];
         verifications := verifications p; ending := ending p; exited := exited p |}
  | None =>
      {| connecting := under_way; timers := timers p;
         verifications := S (verifications p); ending := ending p; exited := exited p |}
  end.

(** The callback given to [db.end]. *)
Definition end_callback (err : option error) (under_way : nat) (p : process) : process :=
  {| connecting := connecting p; timers := timers p;
     verifications := verifications p; ending := under_way;
     exited := Some (match err with Some _ => 1 | None => 0 end) |}.

(** One turn of the event loop.  [None]: the event cannot happen in this
    state (the process has exited, or no callback or timer of that kind is
    due). *)
Definition step (ev : event) (p : process) : option process :=
  match exited p with
  | Some _ => None
  | None =>
      match ev with
      | ConnectCallback err =>
          match connecting p with
          | 0 => None
          | S under_way => Some (connect_callback err under_way p)
          end
      | RetryTimer =>
          match timers p with
          | [] => None
          | _ :: rest =>
              Some (connectWithRetry
                      {| connecting := connecting p; timers := rest;
                         verifications := verifications p; ending := ending p;
                         exited := exited p |})
          end
      | ConnectionError err =>
          match Supervisor.on_error err with
          | Supervisor.Reconnect => Some (connectWithRetry p)
          | Supervisor.Rethrow _ => Some (shutdown p)
          end
      | LivenessTick state =>
          if Health.connected state then Some p else Some (connectWithRetry p)
      | Signal _ | UncaughtException | UnhandledRejection => Some (shutdown p)
      | EndCallback err =>
          match ending p with
          | 0 => None
          | S under_way => Some (end_callback err under_way p)
          end
      | ServerError _ =>
          Some {| connecting := connecting p; timers := timers p;
                  verifications := verifications p; ending := ending p;
                  exited := Some 1 |}
      end
  end.

Fixpoint run (evs : list event) (p : process) : option process :=
  match evs with
  | [] => Some p
  | ev :: rest => p' ← step ev p; run rest p'
  end.

(** The reconnect chains under way: a chain is a connect whose callback is
    due or a retry timer that has not fired. *)
Definition chains (p : process) : nat := connecting p + length (timers p).

(** The events that start a chain from outside, and the one that ends one. *)
Definition starts_chain (ev : event) : bool :=
  match ev with
  | ConnectionError err => Supervisor.lost_connection err
  | LivenessTick state => negb (Health.connected state)
  | _ => false
  end.

Definition connects (ev : event) : bool :=
  match ev with
  | ConnectCallback None => true
  | _ => false
  end.

(** The event that completes a [shutdown]. *)
Definition ends (ev : event) : bool :=
  match ev with
  | EndCallback _ => true
  | _ => false
  end.

(** The events whose handler calls [shutdown]. *)
Definition asks_shutdown (ev : event) : bool :=
  match ev with
  | Signal _ | UncaughtException | UnhandledRejection => true
  | ConnectionError err => negb (Supervisor.lost_connection err)
  | _ => false
  end.

End Lifecycle.

(** ** More sample requests *)

Module Sample.

Import Importer.

(** [{data: {medications: m}}] for any value [m]. *)
Definition restore_with (m : json) : json :=
  JObj [("data", JObj [("medications", m)])].

Definition connection_refused : error :=
  {| code := Some "ECONNREFUSED"; message := "connect ECONNREFUSED 127.0.0.1:3306" |}.

Definition duplicate_entry : error :=
  {| code := Some "ER_DUP_ENTRY"; message := "Duplicate entry" |}.

Definition type_error : error :=
  {| code := None; message := "Cannot read properties of undefined" |}.

(** Every query returns one row. *)
Definition all_up (t : table) : answer :=
  match t with
  | Medications => Rows [JObj [("total", JNum 4); ("taken", JStr "1")]]
  | u => Scenario.medications_down u
  end.

(** The vitals query succeeds without a row. *)
Definition vitals_empty (t : table) : answer :=
  match t with
  | Vitals => Rows []
  | u => all_up u
  end.

(** The callbacks in the order the queries were issued. *)
Definition in_order : list (table * string) :=
  [(Medications, "2025-01-01T08:00:00.020Z"); (Reminders, "2025-01-01T08:00:00.021Z");
   (Vitals, "2025-01-01T08:00:00.022Z"); (Appointments, "2025-01-01T08:00:00.023Z")].

(** A database with other medications on file than [Scenario.stocked]. *)
Definition other_stock : database :=
  {| medications := [Scenario.aspirin_row; Scenario.ibuprofen_row];
     reminders := [JObj [("title", JStr "refill")]]; vitals := []; appointments := [] |}.

End Sample.

(** * Properties *)

(** ** Joining the four callbacks *)

Section Join.

Context {V : Type} (store : table -> V).

(** The dictionary a handler has filled once the callbacks of [order] have
    run, whatever it held before. *)
Lemma filled_lookup (order : list table) (m : gmap string V) (t : table) :
  t ∈ order ->
  foldl (λ acc u, <[key u := store u]> acc) m order !! key t = Some (store t).
Proof.
  revert m. induction order as [|u order IH] using rev_ind; intros m Hin.
  - by apply elem_of_nil in Hin.
  - rewrite foldl_app. simpl.
    destruct (decide (u = t)) as [->|Hne].
    + by rewrite lookup_insert_eq.
    + rewrite lookup_insert_ne; last by destruct u, t.
      apply IH. apply elem_of_app in Hin as [Hin|Hin]; first done.
      apply list_elem_of_singleton in Hin. congruence.
Qed.

Lemma filled_dom (order : list table) (m : gmap string V) :
  dom (foldl (λ acc u, <[key u := store u]> acc) m order)
  = list_to_set (key <$> order) ∪ dom m.
Proof.
  revert m. induction order as [|u order IH]; intros m; simpl.
  - by rewrite (left_id_L ∅ (∪)).
  - rewrite IH, dom_insert_L, !(assoc_L (∪)).
    by rewrite (comm_L (∪) (list_to_set _)).
Qed.

End Join.

(** A schedule that calls every callback back exactly once has four
    entries, ends with one of them, and mentions every table. *)
Lemma schedule_shape (schedule : list (table * string)) :
  schedule.*1 ≡ₚ tables ->
  (∃ pre t now, schedule = pre ++ [(t, now)] ∧ length pre = 3)
  ∧ ∀ t, t ∈ schedule.*1.
Proof.
  intros Hp. split.
  - assert (Hlen : length schedule = 4).
    { rewrite <- (length_fmap fst), Hp. reflexivity. }
    destruct schedule as [|ev schedule] using rev_ind; first done.
    destruct ev as [t now]. exists schedule, t, now. split; first done.
    rewrite length_app in Hlen. simpl in Hlen. lia.
  - intros t. rewrite Hp. destruct t; set_solver.
Qed.

(** ** Dashboard aggregator *)

Module AggregatorSpec.

Import Aggregator.

Section Run.

Context (answers : table -> answer).

Local Abbreviation step := (λ s ev, callback ev.1 (answers ev.1) ev.2 s).
Local Abbreviation fill := (λ acc u, <[key u := stored_rows u (answers u)]> acc).

Lemma callback_results t a now s :
  results (callback t a now s) = <[key t := stored_rows t a]> (results s)
  ∧ completedQueries (callback t a now s) = S (completedQueries s).
Proof.
  unfold callback, checkCompletion; simpl.
  case_decide; [destruct (snapshot _ _)|]; done.
Qed.

Lemma run_results schedule s :
  results (foldl step s schedule) = foldl fill (results s) schedule.*1
  ∧ completedQueries (foldl step s schedule) = completedQueries s + length schedule.
Proof.
  revert s. induction schedule as [|[t now] schedule IH]; intros s; simpl.
  - split; [done | lia].
  - destruct (IH (callback t (answers t) now s)) as [-> ->].
    destruct (callback_results t (answers t) now s) as [-> ->].
    split; [done | lia].
Qed.

(** Before the counter reaches [totalQueries] no callback settles the
    promise or throws. *)
Lemma run_pending schedule s :
  settled s = Pending ->
  completedQueries s + length schedule < totalQueries ->
  settled (foldl step s schedule) = Pending
  ∧ uncaught (foldl step s schedule) = uncaught s.
Proof.
  revert s. induction schedule as [|[t now] schedule IH]; intros s Hs Hlt; simpl in *.
  - done.
  - assert (Hone : settled (callback t (answers t) now s) = Pending
                   ∧ uncaught (callback t (answers t) now s) = uncaught s).
    { unfold callback, checkCompletion; simpl. case_decide; [lia | done]. }
    destruct Hone as [Hp Hu].
    destruct (IH (callback t (answers t) now s)) as [-> ->]; try done.
    destruct (callback_results t (answers t) now s) as [_ ->]. lia.
Qed.

(** No callback calls [reject]. *)
Lemma callback_keeps_unrejected t a now s :
  (∀ err, settled s ≠ Rejected err) ->
  ∀ err, settled (callback t a now s) ≠ Rejected err.
Proof.
  intros Hs err. unfold callback, checkCompletion; simpl.
  case_decide; [destruct (snapshot _ _)|]; simpl; try apply Hs.
  specialize (Hs err). by destruct (settled s).
Qed.

Lemma run_keeps_unrejected schedule s :
  (∀ err, settled s ≠ Rejected err) ->
  ∀ err, settled (foldl step s schedule) ≠ Rejected err.
Proof.
  revert s. induction schedule as [|[t now] schedule IH]; intros s Hs; simpl.
  - done.
  - apply IH. by apply callback_keeps_unrejected.
Qed.

(** Once every key is filled the object literal evaluates without a throw. *)
Lemma snapshot_filled now (rs : gmap string (list json)) :
  (∀ u, rs !! key u = Some (stored_rows u (answers u))) ->
  snapshot now rs = Return {|
    medications := head (stored_rows Medications (answers Medications));
    reminders := head (stored_rows Reminders (answers Reminders));
    vitals := head (stored_rows Vitals (answers Vitals));
    appointments := head (stored_rows Appointments (answers Appointments));
    lastUpdated := now |}.
Proof.
  intros H. unfold snapshot, first_of.
  pose proof (H Medications) as Hm. pose proof (H Reminders) as Hr.
  pose proof (H Vitals) as Hv. pose proof (H Appointments) as Ha.
  simpl in Hm, Hr, Hv, Ha. rewrite Hm; simpl. rewrite Hr; simpl.
  rewrite Hv; simpl. rewrite Ha; simpl. reflexivity.
Qed.

(** The callback that brings the counter to four resolves the promise. *)
Lemma callback_last t now s :
  completedQueries s = 3 ->
  settled s = Pending ->
  (∀ u, <[key t := stored_rows t (answers t)]> (results s) !! key u
        = Some (stored_rows u (answers u))) ->
  settled (callback t (answers t) now s) = Fulfilled {|
    medications := head (stored_rows Medications (answers Medications));
    reminders := head (stored_rows Reminders (answers Reminders));
    vitals := head (stored_rows Vitals (answers Vitals));
    appointments := head (stored_rows Appointments (answers Appointments));
    lastUpdated := now |}.
Proof.
  intros Hcnt Hpend Hfull. unfold callback, checkCompletion; simpl.
  rewrite Hcnt; simpl. rewrite (snapshot_filled now _ Hfull).
  by rewrite Hpend.
Qed.

(** The whole run, for a schedule that calls every callback back once. *)
Lemma dashboard_complete schedule pre t now :
  schedule.*1 ≡ₚ tables ->
  schedule = pre ++ [(t, now)] ->
  length pre = 3 ->
  settled (getDashboardStats answers schedule) = Fulfilled {|
    medications := head (stored_rows Medications (answers Medications));
    reminders := head (stored_rows Reminders (answers Reminders));
    vitals := head (stored_rows Vitals (answers Vitals));
    appointments := head (stored_rows Appointments (answers Appointments));
    lastUpdated := now |}.
Proof.
  intros Hp -> Hlen. unfold getDashboardStats. rewrite foldl_app. simpl.
  destruct (schedule_shape _ Hp) as [_ Hall].
  destruct (run_pending pre initial) as [Hpend _];
    [done | simpl; unfold totalQueries; simpl; lia |].
  destruct (run_results pre initial) as [Hres Hcnt]. simpl in Hcnt, Hres.
  apply callback_last; [lia | done |].
  intros u. rewrite Hres.
  assert (Hsnoc : foldl fill (∅ : gmap string (list json)) (pre ++ [(t, now)]).*1
                  = <[key t := stored_rows t (answers t)]> (foldl fill ∅ pre.*1)).
  { by rewrite fmap_app, foldl_app. }
  rewrite <- Hsnoc.
  apply (filled_lookup (λ u, stored_rows u (answers u))), Hall.
Qed.

End Run.

(** The serialised snapshot holds, under a table's key, that table's
    property of the snapshot; a property that is [undefined] is left out. *)
Lemma stats_json_member (st : stats) :
  ∃ members, stats_json st = JObj members
             ∧ ∀ t, assoc (key t) members = summary t st.
Proof.
  eexists; split; first reflexivity.
  intros t. destruct st as [[m|] [r|] [v|] [a|] now], t; reflexivity.
Qed.

(** C7.  With every callback called back once, in any order: the promise
    is still pending after each proper prefix of the callbacks, and the
    last callback resolves it with the first row of each table's stored
    result (the query's single row, or the fallback row) and the clock
    reading of that last callback. *)
Theorem resolves_once_all_four_settled (answers : table -> answer)
    (schedule : list (table * string)) :
  schedule.*1 ≡ₚ tables ->
  (∀ n, n < length schedule ->
        settled (getDashboardStats answers (take n schedule)) = Pending)
  ∧ ∃ st now,
      list.last schedule.*2 = Some now
      ∧ settled (getDashboardStats answers schedule) = Fulfilled st
      ∧ dashboard_stats answers schedule
        = Some {| status := 200; body := stats_json st |}
      ∧ lastUpdated st = now
      ∧ ∀ t, summary t st = head (stored_rows t (answers t))
             ∧ (∀ row, answers t = Rows [row] -> summary t st = Some row)
             ∧ (∀ err, answers t = Failed err -> summary t st = Some (fallback t)).
Proof.
  intros Hp.
  destruct (schedule_shape _ Hp) as [(pre & t & now & Hs & Hlen) _].
  split.
  - intros n Hn. unfold getDashboardStats.
    apply (run_pending answers); first done.
    rewrite length_take. subst schedule. rewrite length_app in *.
    simpl in *. unfold totalQueries; simpl. lia.
  - pose proof (dashboard_complete answers schedule pre t now Hp Hs Hlen) as Hfin.
    eexists _, now. split_and!.
    + subst schedule. rewrite fmap_app. apply last_snoc.
    + exact Hfin.
    + unfold dashboard_stats. by rewrite Hfin.
    + reflexivity.
    + intros u. split_and!.
      * by destruct u.
      * intros row Hrow. destruct u; simpl; by rewrite Hrow.
      * intros err Herr. destruct u; simpl; by rewrite Herr.
Qed.

(** C2.  With every callback called back once, in any order: when the
    query of a table fails, the handler still answers with status 200, the
    body holds that table's fallback row under its key, and every table
    whose query did not come back with an empty row list has its key in
    the body (each query is an aggregate SELECT, which returns one row). *)
Theorem failed_query_gets_fallback (answers : table -> answer)
    (schedule : list (table * string)) (t : table) (err : error) :
  schedule.*1 ≡ₚ tables ->
  answers t = Failed err ->
  ∃ members,
    dashboard_stats answers schedule = Some {| status := 200; body := JObj members |}
    ∧ assoc (key t) members = Some (fallback t)
    ∧ ∀ u, answers u ≠ Rows [] -> is_Some (assoc (key u) members).
Proof.
  intros Hp Hfail.
  destruct (schedule_shape _ Hp) as [(pre & last & now & Hs & Hlen) _].
  pose proof (dashboard_complete answers schedule pre last now Hp Hs Hlen) as Hfin.
  unfold dashboard_stats. rewrite Hfin.
  destruct (stats_json_member
    {| medications := head (stored_rows Medications (answers Medications));
       reminders := head (stored_rows Reminders (answers Reminders));
       vitals := head (stored_rows Vitals (answers Vitals));
       appointments := head (stored_rows Appointments (answers Appointments));
       lastUpdated := now |}) as (members & Hjson & Hmem).
  exists members. rewrite Hjson. split_and!; first done.
  - rewrite Hmem. destruct t; simpl; by rewrite Hfail.
  - intros u Hne. rewrite Hmem.
    replace (summary u _) with (head (stored_rows u (answers u)))
      by (by destruct u).
    destruct (answers u) as [e|[|row rows]]; simpl; by eauto.
Qed.

(** C10.  No callback ever calls [reject]: whatever the driver answers and
    in whatever order (or number) the callbacks run, the promise is not
    rejected; and once each of the four callbacks has run, it is fulfilled
    and the handler answers through [res.json], not through its [catch]
    branch. *)
Theorem getDashboardStats_never_rejects (answers : table -> answer)
    (schedule : list (table * string)) :
  (∀ err, settled (getDashboardStats answers schedule) ≠ Rejected err)
  ∧ (schedule.*1 ≡ₚ tables ->
     ∃ st, settled (getDashboardStats answers schedule) = Fulfilled st
           ∧ dashboard_stats answers schedule
             = Some {| status := 200; body := stats_json st |}).
Proof.
  split.
  - by apply run_keeps_unrejected.
  - intros Hp.
    destruct (schedule_shape _ Hp) as [(pre & t & now & Hs & Hlen) _].
    pose proof (dashboard_complete answers schedule pre t now Hp Hs Hlen) as Hfin.
    eexists. split; first exact Hfin.
    unfold dashboard_stats. by rewrite Hfin.
Qed.

Lemma resolves_once_all_four_settled_witness :
  Scenario.shuffled.*1 ≡ₚ tables
  ∧ settled (getDashboardStats Scenario.medications_down (take 3 Scenario.shuffled))
    = Pending
  ∧ ∃ st, settled (getDashboardStats Scenario.medications_down Scenario.shuffled)
          = Fulfilled st
          ∧ lastUpdated st = "2025-01-01T08:00:00.013Z"
          ∧ vitals st = Some (JObj [("total", JNum 7)]).
Proof.
  assert (Hp : Scenario.shuffled.*1 ≡ₚ tables) by solve_Permutation.
  split; first exact Hp.
  destruct (resolves_once_all_four_settled Scenario.medications_down
              Scenario.shuffled Hp) as (Hpre & st & now & Hlast & Hfin & _ & Hnow & Hsum).
  split.
  - apply (Hpre 3). simpl. lia.
  - exists st. split; first exact Hfin. split.
    + rewrite Hnow. simpl in Hlast. congruence.
    + destruct (Hsum Vitals) as (_ & Hrow & _). by apply Hrow.
Defined.

Lemma failed_query_gets_fallback_witness :
  Scenario.shuffled.*1 ≡ₚ tables
  ∧ Scenario.medications_down Medications = Failed Scenario.access_denied
  ∧ ∃ members,
      dashboard_stats Scenario.medications_down Scenario.shuffled
      = Some {| status := 200; body := JObj members |}
      ∧ assoc "medications" members
        = Some (JObj [("total", JNum 0); ("taken", JNum 0)]).
Proof.
  assert (Hp : Scenario.shuffled.*1 ≡ₚ tables) by solve_Permutation.
  split; first exact Hp. split; first reflexivity.
  destruct (failed_query_gets_fallback Scenario.medications_down Scenario.shuffled
              Medications Scenario.access_denied Hp eq_refl)
    as (members & Hresp & Hfb & _).
  by exists members.
Defined.

Lemma getDashboardStats_never_rejects_witness :
  Scenario.shuffled.*1 ≡ₚ tables
  ∧ ∃ st, dashboard_stats Scenario.medications_down Scenario.shuffled
          = Some {| status := 200; body := stats_json st |}.
Proof.
  assert (Hp : Scenario.shuffled.*1 ≡ₚ tables) by solve_Permutation.
  split; first exact Hp.
  destruct (getDashboardStats_never_rejects Scenario.medications_down
              Scenario.shuffled) as [_ Hfin].
  destruct (Hfin Hp) as (st & _ & Hresp). by exists st.
Defined.

End AggregatorSpec.

(** ** Bulk exporter *)

Module ExporterSpec.

Import Exporter.

Section Run.

Context (answers : table -> answer).

Local Abbreviation step := (λ s ev, callback ev.1 (answers ev.1) ev.2 s).
Local Abbreviation fill := (λ acc u, <[key u := entry (answers u)]> acc).

Lemma export_filled schedule s :
  exportData (foldl step s schedule) = foldl fill (exportData s) schedule.*1
  ∧ completedQueries (foldl step s schedule) = completedQueries s + length schedule.
Proof.
  revert s. induction schedule as [|[t now] schedule IH]; intros s; simpl.
  - split; [done | lia].
  - destruct (IH (callback t (answers t) now s)) as [-> ->].
    unfold callback, checkCompletion; simpl.
    case_decide; simpl; split; (done || lia).
Qed.

(** Nothing is sent before the counter reaches [totalQueries]. *)
Lemma export_unsent schedule s :
  sent s = None ->
  completedQueries s + length schedule < totalQueries ->
  sent (foldl step s schedule) = None.
Proof.
  revert s. induction schedule as [|[t now] schedule IH]; intros s Hs Hlt; simpl in *.
  - done.
  - apply IH; unfold callback, checkCompletion; simpl;
      case_decide; simpl; (done || lia).
Qed.

Lemma export_complete schedule pre t now :
  schedule = pre ++ [(t, now)] ->
  length pre = 3 ->
  sent (export_data answers schedule)
  = Some {| status := 200;
            body := {| success := true; exportedAt := now;
                       data := foldl fill ∅ schedule.*1 |} |}.
Proof.
  intros -> Hlen. unfold export_data. rewrite fmap_app, !foldl_app. simpl.
  destruct (export_filled pre initial) as [Hdata Hcnt]. simpl in Hdata, Hcnt.
  destruct (foldl step initial pre) as [d n r]. simpl in *. subst d n.
  unfold callback, checkCompletion; simpl. by rewrite Hlen.
Qed.

End Run.

(** C3.  With every callback called back once, in any order: the handler
    answers 200 with [success: true]; [data] has exactly the four table
    keys; a table whose query failed is mapped to [{error: message}], an
    object and not a row list, and a table whose query succeeded to the
    rows as the driver returned them. *)
Theorem export_has_exactly_four_entries (answers : table -> answer)
    (schedule : list (table * string)) :
  schedule.*1 ≡ₚ tables ->
  ∃ now d,
    sent (export_data answers schedule)
    = Some {| status := 200;
              body := {| success := true; exportedAt := now; data := d |} |}
    ∧ dom d = ({["medications"; "reminders"; "vitals"; "appointments"]} : gset string)
    ∧ ∀ t, (∀ err, answers t = Failed err ->
                   d !! key t = Some (JObj [("error", JStr (message err))]))
           ∧ (∀ rows, answers t = Rows rows -> d !! key t = Some (JArr rows)).
Proof.
  intros Hp.
  destruct (schedule_shape _ Hp) as [(pre & t & now & Hs & Hlen) Hall].
  eexists now, _. split_and!.
  - by apply (export_complete answers schedule pre t now).
  - rewrite (filled_dom (λ u, entry (answers u))), Hp. set_solver.
  - intros u.
    pose proof (filled_lookup (λ u, entry (answers u)) schedule.*1 ∅ u (Hall u)) as Hu.
    simpl in Hu. split; intros ? Heq; rewrite Hu, Heq; reflexivity.
Qed.

Lemma export_has_exactly_four_entries_witness :
  Scenario.shuffled.*1 ≡ₚ tables
  ∧ ∃ now d,
      sent (export_data Scenario.medications_down Scenario.shuffled)
      = Some {| status := 200;
                body := {| success := true; exportedAt := now; data := d |} |}
      ∧ d !! "medications"
        = Some (JObj [("error", JStr "DELETE command denied to user")])
      ∧ d !! "vitals" = Some (JArr [JObj [("total", JNum 7)]]).
Proof.
  assert (Hp : Scenario.shuffled.*1 ≡ₚ tables) by solve_Permutation.
  split; first exact Hp.
  destruct (export_has_exactly_four_entries Scenario.medications_down
              Scenario.shuffled Hp) as (now & d & Hsent & _ & Hentry).
  exists now, d. split; first exact Hsent. split.
  - destruct (Hentry Medications) as [Hfail _].
    exact (Hfail Scenario.access_denied eq_refl).
  - destruct (Hentry Vitals) as [_ Hrows]. exact (Hrows _ eq_refl).
Defined.

End ExporterSpec.

(** ** Bulk importer *)

Module ImporterSpec.

Import Importer.

Lemma assoc_absent (k : string) (members : list (string * json)) :
  (∀ k' v, (k', v) ∈ members -> k' ≠ k) ->
  assoc k members = undefined.
Proof.
  induction members as [|[k' v] members IH]; intros Hno; simpl; first done.
  destruct (String.eqb_spec k k') as [->|_].
  - exfalso. apply (Hno k' v); [left | done].
  - apply IH. intros k'' v' Hin. apply (Hno k'' v'). by right.
Qed.

(** A value that has properties to read is truthy. *)
Lemma prop_defined_truthy (k : string) (v w : json) :
  prop k v = Return (Some w) -> truthy (Some v) = true.
Proof. by destruct v. Qed.

(** [map] keeps length and order: the i-th row is made from the i-th
    record. *)
Lemma map_values_spec (meds : list json) :
  Forall (λ med, med ≠ JNull) meds ->
  ∃ values, map_values meds = Return values
            ∧ Forall2 (λ med r, to_values med = Return r) meds values.
Proof.
  induction 1 as [|med meds Hmed _ (values & Hvalues & Hall)]; simpl.
  - by exists [].
  - assert (∃ r, to_values med = Return r) as [r Hr].
    { destruct med; try done; eexists; reflexivity. }
    exists (r :: values). rewrite Hr; simpl. rewrite Hvalues; simpl.
    split; first done. by constructor.
Qed.

(** The fields of one row, read off its record. *)
Lemma to_values_fields (med : json) (r : row) :
  to_values med = Return r ->
  prop "name" med = Return (name r)
  ∧ prop "dosage" med = Return (dosage r)
  ∧ prop "frequency" med = Return (frequency r)
  ∧ prop "time" med = Return (time r)
  ∧ (∀ k, prop "taken" med = Return k -> taken r = or_else k (Some (JBool false))).
Proof.
  destruct med; simpl; try done; intros [= <-]; simpl; split_and!; try done;
    by intros k [= <-].
Qed.

Section Engine.

Context (engine : json -> completion bool).

(** The operation on an array of records, statement by statement. *)
Lemma import_medications_array (meds : list json) (values : list row) d db :
  map_values meds = Return values ->
  import_medications engine (JArr meds) d db =
    if bool_decide (0 < length meds) then
      {| promised :=
           match delete_err d, insert_err d with
           | Some err, _ => Rejected err
           | None, Some err => Rejected err
           | None, None => Fulfilled ()
           end;
         db_now := run_insert d values (run_delete d db);
         sent := [DELETE_FROM_medications; INSERT_INTO_medications values];
         uncaught := [] |}
    else
      {| promised :=
           match delete_err d with
           | Some err => Rejected err
           | None => Fulfilled ()
           end;
         db_now := run_delete d db;
         sent := [DELETE_FROM_medications];
         uncaught := [] |}.
Proof.
  intros Hvalues. unfold import_medications; simpl.
  case_bool_decide; simpl; [rewrite Hvalues|];
    by destruct (delete_err d), (insert_err d).
Qed.

(** The handler on a document whose [medications] is an array. *)
Lemma import_data_array req_body data (meds : list json) d db :
  prop "data" req_body = Return (Some data) ->
  prop "medications" data = Return (Some (JArr meds)) ->
  let op := import_medications engine (JArr meds) d db in
  import_data engine req_body d db =
    {| reply := answer_all (promise_all [promised op]);
       db_after := db_now op;
       statements := sent op ++ [];
       escaped := uncaught op ++ [] |}.
Proof.
  intros Hdata Hmeds. unfold import_data. rewrite Hdata.
  rewrite (prop_defined_truthy _ _ _ Hmeds).
  unfold launch. rewrite Hmeds. reflexivity.
Qed.

End Engine.

(** C4.  A request body without a [data] property is answered with 400
    and nothing else happens: no statement is sent and the database is as
    before. *)
Theorem missing_data_is_rejected (engine : json -> completion bool)
    (req_body : json) (d : driver) (db : database) :
  prop "data" req_body = Return undefined ->
  import_data engine req_body d db =
    {| reply := Some {| status := 400;
                        body := JObj [("error", JStr "No data provided for import")] |};
       db_after := db; statements := []; escaped := [] |}.
Proof. intros Hdata. unfold import_data. by rewrite Hdata. Qed.

(** C8.  A [data] object none of whose keys is [medications] is accepted
    and ignored: the answer is the success response, no statement is sent,
    no exception escapes, and all four tables are as before. *)
Theorem unrecognized_keys_are_ignored (engine : json -> completion bool)
    (req_body : json) (members : list (string * json)) (d : driver) (db : database) :
  prop "data" req_body = Return (Some (JObj members)) ->
  (∀ k v, (k, v) ∈ members -> k ≠ "medications") ->
  import_data engine req_body d db =
    {| reply := Some {| status := 200;
                        body := JObj [("success", JBool true);
                                      ("message", JStr "Data imported successfully")] |};
       db_after := db; statements := []; escaped := [] |}.
Proof.
  intros Hdata Hkeys. unfold import_data. rewrite Hdata; simpl.
  unfold launch; simpl. by rewrite (assoc_absent _ _ Hkeys).
Qed.

(** [Promise.all] fulfils exactly when every promise has, and rejects as
    soon as one has. *)
Lemma promise_all_fulfilled (ps : list (promise unit)) :
  promise_all ps = Fulfilled () ↔ Forall (λ p, p = Fulfilled ()) ps.
Proof.
  induction ps as [|[|[]|err] ps IH]; simpl.
  - split; [constructor | done].
  - split; [by destruct (promise_all ps) | by inversion 1].
  - rewrite IH. split; [by constructor | by inversion 1].
  - split; [done | by inversion 1].
Qed.

Lemma promise_all_rejected (ps : list (promise unit)) :
  Exists (λ p, ∃ err, p = Rejected err) ps -> ∃ err, promise_all ps = Rejected err.
Proof.
  induction 1 as [p ps [err ->]|p ps _ [err IH]]; simpl.
  - by exists err.
  - destruct p as [| |err']; rewrite ?IH; by eauto.
Qed.

Lemma answer_all_success (p : promise unit) :
  answer_all p = Some {| status := 200;
                         body := JObj [("success", JBool true);
                                       ("message", JStr "Data imported successfully")] |}
  ↔ p = Fulfilled ().
Proof. destruct p as [|[]|]; simpl; split; by inversion 1. Qed.

(** What the normal path does: when the DELETE goes through, the old rows
    are gone before the INSERT is sent, and the table ends up holding the
    new rows, or nothing when the list is empty or the INSERT fails. *)
Lemma full_replace_when_delete_succeeds (engine : json -> completion bool)
    (req_body data : json) (meds : list json) (values : list row)
    (d : driver) (db : database) :
  prop "data" req_body = Return (Some data) ->
  prop "medications" data = Return (Some (JArr meds)) ->
  map_values meds = Return values ->
  delete_err d = None ->
  let out := import_data engine req_body d db in
  medications (db_after out)
    = match insert_err d with Some _ => [] | None => values end
  ∧ (meds = [] ->
     statements out = [DELETE_FROM_medications]
     ∧ medications (db_after out) = []
     ∧ reply out = Some {| status := 200;
                           body := JObj [("success", JBool true);
                                         ("message", JStr "Data imported successfully")] |}).
Proof.
  intros Hdata Hmeds Hvalues Hdel out. subst out.
  rewrite (import_data_array engine _ _ _ d db Hdata Hmeds).
  rewrite (import_medications_array engine meds values d db Hvalues).
  unfold run_insert, run_delete. rewrite Hdel.
  split.
  - case_bool_decide as Hlen; simpl.
    + by destruct (insert_err d).
    + destruct meds; simpl in *; [|lia]. injection Hvalues as <-.
      by destruct (insert_err d).
  - by intros ->.
Qed.

(** C1, the execution that breaks it.  One medication is on file, the
    request brings one other, the DELETE is refused and the INSERT goes
    through: the callback rejects and goes on to send the INSERT, so the
    table ends up with the old row and the new one, and the answer is the
    500 response. *)
Theorem delete_error_still_inserts :
  let out := import_data Scenario.no_coercion (Scenario.restore [Scenario.aspirin])
               Scenario.delete_denied Scenario.stocked in
  statements out
    = [DELETE_FROM_medications; INSERT_INTO_medications [Scenario.aspirin_row]]
  ∧ medications (db_after out) = [Scenario.ibuprofen_row; Scenario.aspirin_row]
  ∧ reply out = Some {| status := 500;
                        body := JObj [("error", JStr "Failed to import data")] |}.
Proof. by split_and!. Qed.

(** C6.  For a non-empty array of records the handler sends one INSERT
    after the DELETE, with one row per record in the order of the array;
    the fields of a row are the record's [name], [dosage], [frequency],
    [time] and [taken], the last replaced by [false] when it is absent (or
    otherwise falsy).  When both statements go through, the table holds
    exactly these rows; for a single record without [taken] that is one
    row with [taken = false]. *)
Theorem medications_are_inserted_in_order (engine : json -> completion bool)
    (req_body data : json) (meds : list json) (d : driver) (db : database) :
  prop "data" req_body = Return (Some data) ->
  prop "medications" data = Return (Some (JArr meds)) ->
  meds ≠ [] ->
  Forall (λ med, med ≠ JNull) meds ->
  let out := import_data engine req_body d db in
  ∃ values,
    statements out = [DELETE_FROM_medications; INSERT_INTO_medications values]
    ∧ length values = length meds
    ∧ (∀ i med, meds !! i = Some med ->
         ∃ r, values !! i = Some r
              ∧ prop "name" med = Return (name r)
              ∧ prop "dosage" med = Return (dosage r)
              ∧ prop "frequency" med = Return (frequency r)
              ∧ prop "time" med = Return (time r)
              ∧ (∀ k, prop "taken" med = Return k ->
                      taken r = or_else k (Some (JBool false)))
              ∧ (prop "taken" med = Return undefined ->
                 taken r = Some (JBool false)))
    ∧ (delete_err d = None -> insert_err d = None ->
       medications (db_after out) = values)
    ∧ (∀ med, meds = [med] -> prop "taken" med = Return undefined ->
       delete_err d = None -> insert_err d = None ->
       ∃ r, medications (db_after out) = [r] ∧ taken r = Some (JBool false)).
Proof.
  intros Hdata Hmeds Hne Hrec out. subst out.
  destruct (map_values_spec meds Hrec) as (values & Hvalues & Hall).
  rewrite (import_data_array engine _ _ _ d db Hdata Hmeds).
  rewrite (import_medications_array engine meds values d db Hvalues).
  assert (Hrow : ∀ i med, meds !! i = Some med ->
            ∃ r, values !! i = Some r
                 ∧ prop "name" med = Return (name r)
                 ∧ prop "dosage" med = Return (dosage r)
                 ∧ prop "frequency" med = Return (frequency r)
                 ∧ prop "time" med = Return (time r)
                 ∧ (∀ k, prop "taken" med = Return k ->
                         taken r = or_else k (Some (JBool false)))
                 ∧ (prop "taken" med = Return undefined ->
                    taken r = Some (JBool false))).
  { intros i med Hi.
    destruct (Forall2_lookup_l _ _ _ _ _ Hall Hi) as (r & Hr & Hto).
    destruct (to_values_fields med r Hto) as (Hn & Hd & Hf & Ht & Hk).
    exists r. split_and!; try done. intros Habs. by rewrite (Hk _ Habs). }
  rewrite bool_decide_eq_true_2 by (destruct meds; simpl; [done | lia]).
  exists values. simpl. split_and!; try done.
  - symmetry. by eapply Forall2_length.
  - intros Hdel Hins. unfold run_insert, run_delete. by rewrite Hdel, Hins.
  - intros med -> Habs Hdel Hins.
    destruct (Hrow 0 med eq_refl) as (r & Hr & _ & _ & _ & _ & _ & Htaken).
    exists r. split; last by apply Htaken.
    unfold run_insert, run_delete. rewrite Hdel, Hins. simpl.
    apply Forall2_length in Hall. destruct values as [|r' [|]]; simpl in *; try done.
    by injection Hr as ->.
Qed.

(** C5.  The handler answers with the success response exactly when every
    promise in [importPromises] is fulfilled, and with the generic 500
    response as soon as one is rejected.  The only statements sent are
    those of the operations, so nothing is undone: when the DELETE went
    through and the INSERT failed, the answer is 500 and the table stays
    empty. *)
Theorem import_succeeds_iff_all_operations_do (engine : json -> completion bool)
    (req_body data : json) (d : driver) (db : database) :
  prop "data" req_body = Return (Some data) ->
  truthy (Some data) = true ->
  let out := import_data engine req_body d db in
  ∃ importPromises,
    launch engine data d db = Return importPromises
    ∧ (reply out = Some {| status := 200;
                           body := JObj [("success", JBool true);
                                         ("message", JStr "Data imported successfully")] |}
       ↔ Forall (λ op, promised op = Fulfilled ()) importPromises)
    ∧ (Exists (λ op, ∃ err, promised op = Rejected err) importPromises ->
       reply out = Some {| status := 500;
                           body := JObj [("error", JStr "Failed to import data")] |})
    ∧ statements out = importPromises ≫= sent
    ∧ (∀ meds, prop "medications" data = Return (Some (JArr meds)) ->
         Forall (λ med, med ≠ JNull) meds ->
         (status <$> reply out = Some 200
          ↔ delete_err d = None ∧ (meds = [] ∨ insert_err d = None))
         ∧ (∀ err, meds ≠ [] -> delete_err d = None -> insert_err d = Some err ->
              status <$> reply out = Some 500 ∧ medications (db_after out) = [])).
Proof.
  intros Hdata Htruthy out. subst out.
  assert (∃ ops, launch engine data d db = Return ops) as [ops Hops].
  { unfold launch. destruct data; try done; simpl;
      repeat case_match; by eauto. }
  exists ops. unfold import_data. rewrite Hdata, Htruthy, Hops. simpl.
  split_and!; try done.
  - rewrite answer_all_success, promise_all_fulfilled, Forall_fmap. done.
  - intros Hex.
    destruct (promise_all_rejected (promised <$> ops)) as [err ->]; last done.
    apply Exists_fmap. done.
  - intros meds Hmeds Hrec.
    destruct (map_values_spec meds Hrec) as (values & Hvalues & _).
    unfold launch in Hops. rewrite Hmeds in Hops. simpl in Hops.
    injection Hops as <-. simpl.
    rewrite (import_medications_array engine meds values d db Hvalues).
    split.
    + destruct meds as [|med meds]; simpl;
        destruct (delete_err d), (insert_err d); simpl;
        (split; [first [by intros [=]
                       | intros _; split; [done | first [by left | by right]]]
                | intros [Hd [Hm|Hi]]; done]).
    + intros err Hne Hdel Hins.
      rewrite bool_decide_eq_true_2 by (destruct meds; simpl; [done | lia]).
      simpl. unfold run_insert, run_delete. by rewrite Hdel, Hins.
Qed.

Lemma missing_data_is_rejected_witness :
  prop "data" (JObj [("medications", JArr [Scenario.aspirin])]) = Return undefined
  ∧ import_data Scenario.no_coercion (JObj [("medications", JArr [Scenario.aspirin])])
      Scenario.all_ok Scenario.stocked
    = {| reply := Some {| status := 400;
                          body := JObj [("error", JStr "No data provided for import")] |};
         db_after := Scenario.stocked; statements := []; escaped := [] |}.
Proof.
  split; first reflexivity.
  apply (missing_data_is_rejected Scenario.no_coercion). reflexivity.
Defined.

Lemma unrecognized_keys_are_ignored_witness :
  import_data Scenario.no_coercion
    (JObj [("data", JObj [("reminders", JArr []); ("vitals", JArr [JNull])])])
    Scenario.all_ok Scenario.stocked
  = {| reply := Some {| status := 200;
                        body := JObj [("success", JBool true);
                                      ("message", JStr "Data imported successfully")] |};
       db_after := Scenario.stocked; statements := []; escaped := [] |}.
Proof.
  apply (unrecognized_keys_are_ignored Scenario.no_coercion _
           [("reminders", JArr []); ("vitals", JArr [JNull])]).
  - reflexivity.
  - intros k v Hin. repeat (apply elem_of_cons in Hin as [[= -> _]|Hin]; [done|]).
    by apply elem_of_nil in Hin.
Defined.

Lemma medications_are_inserted_in_order_witness :
  ∃ r, medications (db_after (import_data Scenario.no_coercion
                                (Scenario.restore [Scenario.aspirin])
                                Scenario.all_ok Scenario.stocked)) = [r]
       ∧ taken r = Some (JBool false).
Proof.
  destruct (medications_are_inserted_in_order Scenario.no_coercion
              (Scenario.restore [Scenario.aspirin])
              (JObj [("medications", JArr [Scenario.aspirin])])
              [Scenario.aspirin] Scenario.all_ok Scenario.stocked)
    as (values & _ & _ & _ & _ & Hone).
  - reflexivity.
  - reflexivity.
  - done.
  - by repeat constructor.
  - by apply (Hone Scenario.aspirin).
Defined.

Lemma import_succeeds_iff_all_operations_do_witness :
  status <$> reply (import_data Scenario.no_coercion
                      (Scenario.restore [Scenario.aspirin])
                      Scenario.insert_fails Scenario.stocked) = Some 500
  ∧ medications (db_after (import_data Scenario.no_coercion
                             (Scenario.restore [Scenario.aspirin])
                             Scenario.insert_fails Scenario.stocked)) = [].
Proof.
  destruct (import_succeeds_iff_all_operations_do Scenario.no_coercion
              (Scenario.restore [Scenario.aspirin])
              (JObj [("medications", JArr [Scenario.aspirin])])
              Scenario.insert_fails Scenario.stocked)
    as (ops & _ & _ & _ & _ & Hkept).
  - reflexivity.
  - reflexivity.
  - destruct (Hkept [Scenario.aspirin]) as [_ Hfail];
      [reflexivity | by repeat constructor |].
    by apply (Hfail Scenario.parse_error).
Defined.

End ImporterSpec.

(** ** Connection supervisor *)

Module SupervisorSpec.

Import Supervisor.

(** C9.  The listener calls [connectWithRetry] exactly for the two
    lost-connection codes.  Any other error is thrown again: no connect
    is attempted, and the process exits through [shutdown]. *)
Theorem only_lost_connection_reconnects (err : error) (end_err : option error)
    (p : process) :
  (code err = Some "PROTOCOL_CONNECTION_LOST" ∨ code err = Some "ECONNRESET" ->
   on_error err = Reconnect
   ∧ error_event err end_err p
     = {| connect_calls := S (connect_calls p); exit_code := exit_code p |})
  ∧ (code err ≠ Some "PROTOCOL_CONNECTION_LOST" -> code err ≠ Some "ECONNRESET" ->
     on_error err = Rethrow err
     ∧ error_event err end_err p
       = {| connect_calls := connect_calls p;
            exit_code := Some (match end_err with Some _ => 1 | None => 0 end) |}).
Proof.
  unfold error_event, on_error, lost_connection. split.
  - by intros [-> | ->].
  - intros Hlost Hreset. destruct (code err) as [c|]; last done.
    destruct (String.eqb_spec c "PROTOCOL_CONNECTION_LOST") as [->|_]; first done.
    destruct (String.eqb_spec c "ECONNRESET") as [->|_]; done.
Qed.

Lemma only_lost_connection_reconnects_witness :
  connect_calls (error_event Scenario.connection_lost None
                   {| connect_calls := 1; exit_code := None |}) = 2
  ∧ error_event Scenario.parse_error None {| connect_calls := 1; exit_code := None |}
    = {| connect_calls := 1; exit_code := Some 0 |}.
Proof.
  split.
  - destruct (only_lost_connection_reconnects Scenario.connection_lost None
                {| connect_calls := 1; exit_code := None |}) as [Hlost _].
    destruct Hlost as [_ ->]; [by left | reflexivity].
  - destruct (only_lost_connection_reconnects Scenario.parse_error None
                {| connect_calls := 1; exit_code := None |}) as [_ Hfatal].
    destruct Hfatal as [_ ->]; done.
Defined.

End SupervisorSpec.

(** ** Bulk importer: the gates, the malformed documents, the frame *)

Module ImporterEdges.

Import Importer.

Section Engine.

Context (engine : json -> completion bool).

(** The operation never writes to a table other than medications. *)
Lemma operation_keeps_other_tables (m : json) d db :
  reminders (db_now (import_medications engine m d db)) = reminders db
  ∧ vitals (db_now (import_medications engine m d db)) = vitals db
  ∧ appointments (db_now (import_medications engine m d db)) = appointments db.
Proof.
  unfold import_medications, run_insert, run_delete.
  destruct (length_gt_0 engine m) as [[]|]; [destruct (map_call m)|..];
    destruct (delete_err d), (insert_err d); done.
Qed.

(** The operation sends the DELETE first and at most one INSERT after it;
    when an exception escapes no INSERT was sent and the promise was not
    resolved. *)
Lemma operation_shape (m : json) d db :
  let op := import_medications engine m d db in
  (sent op = [DELETE_FROM_medications] ∧ db_now op = run_delete d db
   ∨ ∃ values, sent op = [DELETE_FROM_medications; INSERT_INTO_medications values]
               ∧ uncaught op = [])
  ∧ (uncaught op ≠ [] ->
     sent op = [DELETE_FROM_medications]
     ∧ promised op = match delete_err d with
                     | Some err => Rejected err
                     | None => Pending
                     end).
Proof.
  unfold import_medications.
  destruct (length_gt_0 engine m) as [[]|]; [destruct (map_call m)|..]; simpl;
    (split; [by eauto | done]).
Qed.

End Engine.

(** What [to_values] throws on, and only on. *)
Lemma to_values_throws (med : json) :
  (∃ e, to_values med = Throw e) ↔ med = JNull.
Proof.
  split.
  - intros [e He]. by destruct med.
  - intros ->. by eexists.
Qed.

Lemma map_values_null (meds : list json) :
  JNull ∈ meds -> ∃ e, map_values meds = Throw e.
Proof.
  induction meds as [|med meds IH]; intros Hin.
  - by apply elem_of_nil in Hin.
  - simpl. destruct (to_values med) as [r|e] eqn:Hmed; simpl; last by eauto.
    apply elem_of_cons in Hin as [<-|Hin]; first done.
    destruct (IH Hin) as [e ->]. by eauto.
Qed.

(** The four ways through the handler. *)
Lemma import_data_cases (engine : json -> completion bool)
    (req_body : json) (d : driver) (db : database) :
  let out := import_data engine req_body d db in
  (∃ e, prop "data" req_body = Throw e
        ∧ out = {| reply := None; db_after := db; statements := [];
                   escaped := [e] |})
  ∨ (∃ data, prop "data" req_body = Return data ∧ truthy data = false
       ∧ out = {| reply := Some {| status := 400;
                     body := JObj [("error", JStr "No data provided for import")] |};
                  db_after := db; statements := []; escaped := [] |})
  ∨ (∃ dv m, prop "data" req_body = Return (Some dv) ∧ truthy (Some dv) = true
       ∧ prop "medications" dv = Return m ∧ truthy m = false
       ∧ out = {| reply := Some {| status := 200;
                     body := JObj [("success", JBool true);
                                   ("message", JStr "Data imported successfully")] |};
                  db_after := db; statements := []; escaped := [] |})
  ∨ (∃ dv mv, prop "data" req_body = Return (Some dv) ∧ truthy (Some dv) = true
       ∧ prop "medications" dv = Return (Some mv) ∧ truthy (Some mv) = true
       ∧ out = {| reply := answer_all (promise_all
                             [promised (import_medications engine mv d db)]);
                  db_after := db_now (import_medications engine mv d db);
                  statements := sent (import_medications engine mv d db);
                  escaped := uncaught (import_medications engine mv d db) |}).
Proof.
  unfold import_data.
  destruct (prop "data" req_body) as [[dv|]|e] eqn:Hdata.
  - destruct (truthy (Some dv)) eqn:Htruthy.
    + assert (∃ m, prop "medications" dv = Return m) as [m Hm].
      { destruct dv; try done; by eexists. }
      unfold launch. rewrite Hm.
      destruct m as [mv|]; cbn -[import_medications truthy].
      * destruct (truthy (Some mv)) eqn:Hmv; cbn -[import_medications].
        -- do 3 right. exists dv, mv. split_and!; try done.
           by rewrite !app_nil_r.
        -- right; right; left. by exists dv, (Some mv).
      * right; right; left. by exists dv, None.
    + right; left. by exists (Some dv).
  - right; left. by exists None.
  - left. by exists e.
Qed.

(** X1.  Whatever the request, the engine and the driver do, the importer
    leaves the reminders, vitals and appointments tables as they were. *)
Theorem import_keeps_other_tables (engine : json -> completion bool)
    (req_body : json) (d : driver) (db : database) :
  reminders (db_after (import_data engine req_body d db)) = reminders db
  ∧ vitals (db_after (import_data engine req_body d db)) = vitals db
  ∧ appointments (db_after (import_data engine req_body d db)) = appointments db.
Proof.
  destruct (import_data_cases engine req_body d db)
    as [(e & _ & ->)|[(data & _ & _ & ->)|[(dv & m & _ & _ & _ & _ & ->)
       |(dv & mv & _ & _ & _ & _ & ->)]]]; try done.
  apply operation_keeps_other_tables.
Qed.

(** X2.  Whatever the request: the handler sends nothing, or the DELETE
    alone, or the DELETE followed by one INSERT; an INSERT is never sent
    first or alone.  When nothing is sent the database is untouched. *)
Theorem insert_only_after_delete (engine : json -> completion bool)
    (req_body : json) (d : driver) (db : database) :
  let out := import_data engine req_body d db in
  (statements out = [] ∧ db_after out = db)
  ∨ statements out = [DELETE_FROM_medications]
  ∨ ∃ values, statements out
              = [DELETE_FROM_medications; INSERT_INTO_medications values].
Proof.
  destruct (import_data_cases engine req_body d db)
    as [(e & _ & ->)|[(data & _ & _ & ->)|[(dv & m & _ & _ & _ & _ & ->)
       |(dv & mv & _ & _ & _ & _ & ->)]]]; try by left.
  right. cbn [statements].
  destruct (operation_shape engine mv d db) as [[[-> _]|(values & -> & _)] _].
  - by left.
  - right. by exists values.
Qed.

(** X3.  The 400 response is given exactly when [data] is falsy: absent,
    [null], [false], [0] or the empty string.  In that case nothing is
    sent and the database is untouched. *)
Theorem rejected_iff_data_falsy (engine : json -> completion bool)
    (req_body : json) (d : driver) (db : database) :
  let out := import_data engine req_body d db in
  (status <$> reply out = Some 400
   ↔ ∃ data, prop "data" req_body = Return data ∧ truthy data = false)
  ∧ (status <$> reply out = Some 400 -> statements out = [] ∧ db_after out = db).
Proof.
  destruct (import_data_cases engine req_body d db)
    as [(e & He & ->)|[(data & Hd & Hf & ->)|[(dv & m & Hd & Ht & _ & _ & ->)
       |(dv & mv & Hd & Ht & _ & _ & ->)]]]; cbn [reply statements db_after].
  - split; [split|]; try done. intros (data & Hd & _). congruence.
  - split; [split|]; try done. intros _. by exists data.
  - split; [split|]; try done. intros (data & Hd' & Hf). congruence.
  - assert (Hno : status <$> answer_all (promise_all
                    [promised (import_medications engine mv d db)]) ≠ Some 400).
    { by destruct (promise_all _). }
    split; [split|]; try done. intros (data & Hd' & Hf). congruence.
Qed.

(** X4.  The gate on [data.medications]: a falsy value ([null], [false],
    [0], the empty string, or no key at all) is ignored with the success
    response and the table keeps its rows, whereas any truthy value makes
    the handler send the DELETE first. *)
Theorem medications_gate (engine : json -> completion bool)
    (req_body dv : json) (m : value) (d : driver) (db : database) :
  prop "data" req_body = Return (Some dv) ->
  truthy (Some dv) = true ->
  prop "medications" dv = Return m ->
  let out := import_data engine req_body d db in
  (truthy m = false ->
   out = {| reply := Some {| status := 200;
                             body := JObj [("success", JBool true);
                                           ("message", JStr "Data imported successfully")] |};
            db_after := db; statements := []; escaped := [] |})
  ∧ (truthy m = true -> head (statements out) = Some DELETE_FROM_medications).
Proof.
  intros Hdata Htruthy Hmeds.
  destruct (import_data_cases engine req_body d db)
    as [(e & He & ->)|[(data & Hd & Hf & ->)|[(dv' & m' & Hd & Ht & Hm & Hf & ->)
       |(dv' & mv & Hd & Ht & Hm & Hf & ->)]]]; try congruence.
  - assert (dv' = dv) as -> by congruence.
    assert (m' = m) as -> by congruence.
    split; [done | congruence].
  - assert (dv' = dv) as -> by congruence.
    assert (m = Some mv) as -> by congruence.
    split; first congruence. intros _. cbn [statements].
    by destruct (operation_shape engine mv d db) as [[[-> _]|(values & -> & _)] _].
Qed.

(** X5.  A non-zero number or [true] under [medications] passes the gate,
    has no [length], and so takes the path of the empty list: the DELETE
    is sent alone, and when it goes through the table is left empty and
    the answer is the success response. *)
Theorem scalar_medications_clears_table (engine : json -> completion bool)
    (req_body dv mv : json) (d : driver) (db : database) :
  prop "data" req_body = Return (Some dv) ->
  prop "medications" dv = Return (Some mv) ->
  (∃ n, mv = JNum n ∧ n ≠ 0%Z) ∨ mv = JBool true ->
  delete_err d = None ->
  let out := import_data engine req_body d db in
  statements out = [DELETE_FROM_medications]
  ∧ medications (db_after out) = []
  ∧ status <$> reply out = Some 200
  ∧ escaped out = [].
Proof.
  intros Hdata Hmeds Hmv Hdel.
  assert (Hgate : truthy (Some mv) = true).
  { destruct Hmv as [(n & -> & Hn)| ->]; simpl; last done.
    apply negb_true_iff, Z.eqb_neq, Hn. }
  pose proof (ImporterSpec.prop_defined_truthy _ _ _ Hmeds) as Hdv.
  destruct (import_data_cases engine req_body d db)
    as [(e & He & ->)|[(data & Hd & Hf & ->)|[(dv' & m' & Hd & Ht & Hm & Hf & ->)
       |(dv' & mv' & Hd & Ht & Hm & Hf & ->)]]]; try congruence.
  assert (dv' = dv) as -> by congruence.
  assert (mv' = mv) as -> by congruence.
  unfold import_medications, run_delete. rewrite Hdel.
  by destruct Hmv as [(n & -> & _)| ->].
Qed.

(** X6.  A non-empty string, or an array with a [null] in it, passes the
    gate and then throws inside the DELETE callback: only the DELETE has
    been sent and a TypeError escapes.  When the DELETE went through, the
    table is empty and the request is never answered; when it failed, the
    table is as before and the answer is the 500 response. *)
Theorem malformed_medications_abort (engine : json -> completion bool)
    (req_body dv mv : json) (d : driver) (db : database) :
  prop "data" req_body = Return (Some dv) ->
  prop "medications" dv = Return (Some mv) ->
  (∃ s, mv = JStr s ∧ s ≠ "") ∨ (∃ meds, mv = JArr meds ∧ JNull ∈ meds) ->
  let out := import_data engine req_body d db in
  statements out = [DELETE_FROM_medications]
  ∧ (∃ msg, escaped out = [TypeError msg])
  ∧ (delete_err d = None -> reply out = None ∧ medications (db_after out) = [])
  ∧ (∀ err, delete_err d = Some err ->
       status <$> reply out = Some 500 ∧ db_after out = db).
Proof.
  intros Hdata Hmeds Hmv.
  assert (truthy (Some mv) = true
          ∧ length_gt_0 engine mv = Return true
          ∧ ∃ e, map_call mv = Throw e) as (Hgate & Hlen & [[msg] Hmap]).
  { destruct Hmv as [(s & -> & Hs)|(meds & -> & Hin)]; simpl.
    - split_and!; [|by destruct s|by eauto].
      apply negb_true_iff. by destruct (String.eqb_spec s "").
    - split_and!; [done| |by apply map_values_null].
      destruct meds; [by apply elem_of_nil in Hin | done]. }
  pose proof (ImporterSpec.prop_defined_truthy _ _ _ Hmeds) as Hdv.
  destruct (import_data_cases engine req_body d db)
    as [(e & He & ->)|[(data & Hd & Hf & ->)|[(dv' & m' & Hd & Ht & Hm & Hf & ->)
       |(dv' & mv' & Hd & Ht & Hm & Hf & ->)]]]; try congruence.
  assert (dv' = dv) as -> by congruence.
  assert (mv' = mv) as -> by congruence.
  unfold import_medications, run_delete. rewrite Hlen, Hmap. simpl.
  split_and!; [done|by eauto| |].
  - by intros ->.
  - by intros err ->.
Qed.

(** X7.  Whenever an exception escapes the handler after a statement was
    sent, that statement is the DELETE alone: no INSERT precedes or
    follows a throw.  If the DELETE went through, the table has been
    cleared and the client gets no answer at all. *)
Theorem exception_leaves_table_cleared (engine : json -> completion bool)
    (req_body : json) (d : driver) (db : database) :
  let out := import_data engine req_body d db in
  escaped out ≠ [] ->
  (statements out = [] ∧ reply out = None ∧ db_after out = db)
  ∨ (statements out = [DELETE_FROM_medications]
     ∧ (delete_err d = None ->
        reply out = None ∧ medications (db_after out) = [])).
Proof.
  destruct (import_data_cases engine req_body d db)
    as [(e & _ & ->)|[(data & _ & _ & ->)|[(dv & m & _ & _ & _ & _ & ->)
       |(dv & mv & _ & _ & _ & _ & ->)]]]; cbn [escaped statements reply db_after];
    try done; try by left.
  intros Hesc. right.
  destruct (operation_shape engine mv d db) as [Hsent Hthrown].
  destruct (Hthrown Hesc) as [Hs Hp]. split; first done.
  intros Hdel. rewrite Hp, Hdel. simpl. split; first done.
  destruct Hsent as [[_ ->]|(values & Hs' & _)]; last congruence.
  unfold run_delete. by rewrite Hdel.
Qed.

(** X8.  With both statements going through, the table after an import of
    an array of records holds the rows of the document and nothing else,
    whatever it held before: two databases end with the same medications,
    and importing the same document again changes nothing. *)
Theorem import_forgets_old_rows (engine : json -> completion bool)
    (req_body dv : json) (meds : list json) (d : driver) (db1 db2 : database) :
  prop "data" req_body = Return (Some dv) ->
  prop "medications" dv = Return (Some (JArr meds)) ->
  Forall (λ med, med ≠ JNull) meds ->
  delete_err d = None ->
  insert_err d = None ->
  medications (db_after (import_data engine req_body d db1))
  = medications (db_after (import_data engine req_body d db2))
  ∧ db_after (import_data engine req_body d
                (db_after (import_data engine req_body d db1)))
    = db_after (import_data engine req_body d db1).
Proof.
  intros Hdata Hmeds Hrec Hdel Hins.
  destruct (ImporterSpec.map_values_spec meds Hrec) as (values & Hvalues & _).
  assert (Hafter : ∀ db, db_after (import_data engine req_body d db)
                         = set_medications values db).
  { intros db.
    rewrite (ImporterSpec.import_data_array engine _ _ _ d db Hdata Hmeds).
    rewrite (ImporterSpec.import_medications_array engine meds values d db Hvalues).
    unfold run_insert, run_delete. rewrite Hdel, Hins.
    case_bool_decide as Hlen; simpl; first done.
    destruct meds; simpl in *; [|lia]. by injection Hvalues as <-. }
  by rewrite !Hafter.
Qed.

(** X9.  When the DELETE fails and the INSERT goes through, an import of a
    non-empty array of records appends: the table holds the old rows
    followed by the new ones, and the answer is the 500 response. *)
Theorem failed_delete_appends (engine : json -> completion bool)
    (req_body dv : json) (meds : list json) (d : driver) (db : database)
    (err : error) :
  prop "data" req_body = Return (Some dv) ->
  prop "medications" dv = Return (Some (JArr meds)) ->
  meds ≠ [] ->
  Forall (λ med, med ≠ JNull) meds ->
  delete_err d = Some err ->
  insert_err d = None ->
  let out := import_data engine req_body d db in
  ∃ values,
    map_values meds = Return values
    ∧ length values = length meds
    ∧ medications (db_after out) = medications db ++ values
    ∧ reply out = Some {| status := 500;
                          body := JObj [("error", JStr "Failed to import data")] |}.
Proof.
  intros Hdata Hmeds Hne Hrec Hdel Hins.
  destruct (ImporterSpec.map_values_spec meds Hrec) as (values & Hvalues & Hall).
  exists values. simpl.
  rewrite (ImporterSpec.import_data_array engine _ _ _ d db Hdata Hmeds).
  rewrite (ImporterSpec.import_medications_array engine meds values d db Hvalues).
  rewrite bool_decide_eq_true_2 by (destruct meds; simpl; [done | lia]).
  unfold run_insert, run_delete. rewrite Hdel, Hins. simpl.
  split_and!; try done. symmetry. by eapply Forall2_length.
Qed.

(** X10.  In a row made from a record, [taken] is either [false] or the
    record's own truthy [taken]: [null], [0], the empty string and a
    missing key all become [false], while the other four columns are
    passed on as they are, [undefined] included. *)
Theorem taken_is_false_or_truthy (med : json) (r : row) :
  to_values med = Return r ->
  (taken r = Some (JBool false)
   ∨ (truthy (taken r) = true ∧ prop "taken" med = Return (taken r)))
  ∧ prop "name" med = Return (name r)
  ∧ prop "dosage" med = Return (dosage r)
  ∧ prop "frequency" med = Return (frequency r)
  ∧ prop "time" med = Return (time r).
Proof.
  intros Hr.
  destruct (ImporterSpec.to_values_fields med r Hr) as (Hn & Hd & Hf & Ht & Hk).
  split_and!; try done.
  destruct (prop "taken" med) as [k|e] eqn:Htaken; last by destruct med.
  rewrite (Hk k eq_refl). unfold or_else.
  destruct (truthy k) eqn:Hk'; [right | left]; done.
Qed.

Lemma rejected_iff_data_falsy_witness :
  status <$> reply (import_data Scenario.no_coercion (JObj [("data", JNull)])
                      Scenario.all_ok Scenario.stocked) = Some 400
  ∧ db_after (import_data Scenario.no_coercion (JObj [("data", JNull)])
                Scenario.all_ok Scenario.stocked) = Scenario.stocked.
Proof.
  destruct (rejected_iff_data_falsy Scenario.no_coercion (JObj [("data", JNull)])
              Scenario.all_ok Scenario.stocked) as [[_ Hrej] Hclean].
  assert (H400 : status <$> reply (import_data Scenario.no_coercion
                   (JObj [("data", JNull)]) Scenario.all_ok Scenario.stocked)
                 = Some 400).
  { apply Hrej. by exists (Some JNull). }
  split; first exact H400. by destruct (Hclean H400).
Defined.

Lemma medications_gate_witness :
  medications (db_after (import_data Scenario.no_coercion (Sample.restore_with JNull)
                           Scenario.all_ok Scenario.stocked))
  = [Scenario.ibuprofen_row]
  ∧ head (statements (import_data Scenario.no_coercion (Sample.restore_with (JArr []))
                        Scenario.all_ok Scenario.stocked))
    = Some DELETE_FROM_medications.
Proof.
  split.
  - destruct (medications_gate Scenario.no_coercion (Sample.restore_with JNull)
                (JObj [("medications", JNull)]) (Some JNull)
                Scenario.all_ok Scenario.stocked) as [Hfalsy _];
      [reflexivity | reflexivity | reflexivity |].
    by rewrite Hfalsy.
  - destruct (medications_gate Scenario.no_coercion (Sample.restore_with (JArr []))
                (JObj [("medications", JArr [])]) (Some (JArr []))
                Scenario.all_ok Scenario.stocked) as [_ Htruthy];
      [reflexivity | reflexivity | reflexivity |].
    by apply Htruthy.
Defined.

Lemma scalar_medications_clears_table_witness :
  medications (db_after (import_data Scenario.no_coercion
                           (Sample.restore_with (JNum 5))
                           Scenario.all_ok Scenario.stocked)) = []
  ∧ status <$> reply (import_data Scenario.no_coercion (Sample.restore_with (JNum 5))
                        Scenario.all_ok Scenario.stocked) = Some 200.
Proof.
  destruct (scalar_medications_clears_table Scenario.no_coercion
              (Sample.restore_with (JNum 5)) (JObj [("medications", JNum 5)])
              (JNum 5) Scenario.all_ok Scenario.stocked)
    as (_ & Hempty & Hok & _);
    [reflexivity | reflexivity | left; by exists 5%Z | reflexivity |].
  by split.
Defined.

Lemma malformed_medications_abort_witness :
  reply (import_data Scenario.no_coercion
           (Sample.restore_with (JArr [Scenario.aspirin; JNull]))
           Scenario.all_ok Scenario.stocked) = None
  ∧ medications (db_after (import_data Scenario.no_coercion
                             (Sample.restore_with (JArr [Scenario.aspirin; JNull]))
                             Scenario.all_ok Scenario.stocked)) = [].
Proof.
  destruct (malformed_medications_abort Scenario.no_coercion
              (Sample.restore_with (JArr [Scenario.aspirin; JNull]))
              (JObj [("medications", JArr [Scenario.aspirin; JNull])])
              (JArr [Scenario.aspirin; JNull]) Scenario.all_ok Scenario.stocked)
    as (_ & _ & Hok & _).
  - reflexivity.
  - reflexivity.
  - right. exists [Scenario.aspirin; JNull]. split; first done.
    apply elem_of_cons. right. apply elem_of_cons. by left.
  - by apply Hok.
Defined.

Lemma exception_leaves_table_cleared_witness :
  escaped (import_data Scenario.no_coercion (Sample.restore_with (JStr "all"))
             Scenario.all_ok Scenario.stocked) ≠ []
  ∧ medications (db_after (import_data Scenario.no_coercion
                             (Sample.restore_with (JStr "all"))
                             Scenario.all_ok Scenario.stocked)) = [].
Proof.
  assert (Hesc : escaped (import_data Scenario.no_coercion
                            (Sample.restore_with (JStr "all"))
                            Scenario.all_ok Scenario.stocked) ≠ []) by done.
  split; first exact Hesc.
  destruct (exception_leaves_table_cleared Scenario.no_coercion
              (Sample.restore_with (JStr "all")) Scenario.all_ok Scenario.stocked Hesc)
    as [(Hnone & _)|(_ & Hcleared)].
  - done.
  - by apply Hcleared.
Defined.

Lemma import_forgets_old_rows_witness :
  medications (db_after (import_data Scenario.no_coercion
                           (Scenario.restore [Scenario.aspirin])
                           Scenario.all_ok Scenario.stocked))
  = medications (db_after (import_data Scenario.no_coercion
                             (Scenario.restore [Scenario.aspirin])
                             Scenario.all_ok Sample.other_stock)).
Proof.
  apply (import_forgets_old_rows Scenario.no_coercion
           (Scenario.restore [Scenario.aspirin])
           (JObj [("medications", JArr [Scenario.aspirin])]) [Scenario.aspirin]);
    [reflexivity | reflexivity | by repeat constructor | reflexivity | reflexivity].
Defined.

Lemma failed_delete_appends_witness :
  ∃ values,
    medications (db_after (import_data Scenario.no_coercion
                             (Scenario.restore [Scenario.aspirin])
                             Scenario.delete_denied Sample.other_stock))
    = [Scenario.aspirin_row; Scenario.ibuprofen_row] ++ values
    ∧ length values = 1.
Proof.
  destruct (failed_delete_appends Scenario.no_coercion
              (Scenario.restore [Scenario.aspirin])
              (JObj [("medications", JArr [Scenario.aspirin])]) [Scenario.aspirin]
              Scenario.delete_denied Sample.other_stock Scenario.access_denied)
    as (values & _ & Hlen & Hrows & _);
    [reflexivity | reflexivity | done | by repeat constructor
    | reflexivity | reflexivity |].
  by exists values.
Defined.

Lemma taken_is_false_or_truthy_witness :
  ∃ r, to_values (JObj [("name", JStr "Aspirin"); ("taken", JNum 0)]) = Return r
       ∧ (taken r = Some (JBool false)
          ∨ truthy (taken r) = true
            ∧ prop "taken" (JObj [("name", JStr "Aspirin"); ("taken", JNum 0)])
              = Return (taken r)).
Proof.
  eexists. split; first reflexivity.
  eapply (taken_is_false_or_truthy (JObj [("name", JStr "Aspirin"); ("taken", JNum 0)])).
  reflexivity.
Defined.

End ImporterEdges.

(** ** Dashboard aggregator and exporter: masking, order, hanging *)

Module JoinEdges.

(** The aggregator looks at an answer only through the rows it stores. *)
Lemma dashboard_ext (a1 a2 : table -> answer) (schedule : list (table * string)) :
  (∀ u, Aggregator.stored_rows u (a1 u) = Aggregator.stored_rows u (a2 u)) ->
  Aggregator.getDashboardStats a1 schedule = Aggregator.getDashboardStats a2 schedule.
Proof.
  intros Hext. unfold Aggregator.getDashboardStats.
  generalize Aggregator.initial.
  induction schedule as [|[t now] schedule IH]; intros s; simpl; first done.
  unfold Aggregator.callback at 2 4. rewrite (Hext t). apply IH.
Qed.

(** X11.  A failed summary query cannot be told from one that returned
    the all-zero row: replacing the failure by that row gives the same
    run and the same response, for every order and number of callbacks. *)
Theorem failure_is_masked_as_zero_row (answers : table -> answer)
    (schedule : list (table * string)) (t : table) (err : error) :
  answers t = Failed err ->
  let zeroed := λ u, if decide (u = t) then Rows [Aggregator.fallback t] else answers u in
  Aggregator.getDashboardStats answers schedule
  = Aggregator.getDashboardStats zeroed schedule
  ∧ Aggregator.dashboard_stats answers schedule
    = Aggregator.dashboard_stats zeroed schedule.
Proof.
  intros Hfail zeroed.
  assert (Hrun : Aggregator.getDashboardStats answers schedule
                 = Aggregator.getDashboardStats zeroed schedule).
  { apply dashboard_ext. intros u. subst zeroed. simpl.
    case_decide as Hu; last done. subst u. by rewrite Hfail. }
  split; first done. unfold Aggregator.dashboard_stats. by rewrite Hrun.
Qed.

(** X12.  The snapshot does not depend on the order of the callbacks: two
    runs on the same answers agree on the four summaries, and differ at
    most in [lastUpdated], which is the clock reading of whichever
    callback came last. *)
Theorem dashboard_order_independent (answers : table -> answer)
    (schedule1 schedule2 : list (table * string)) :
  schedule1.*1 ≡ₚ tables ->
  schedule2.*1 ≡ₚ tables ->
  ∃ st1 st2,
    Aggregator.settled (Aggregator.getDashboardStats answers schedule1) = Fulfilled st1
    ∧ Aggregator.settled (Aggregator.getDashboardStats answers schedule2) = Fulfilled st2
    ∧ (∀ t, Aggregator.summary t st1 = Aggregator.summary t st2)
    ∧ (list.last schedule1.*2 = list.last schedule2.*2 -> st1 = st2).
Proof.
  intros Hp1 Hp2.
  destruct (schedule_shape _ Hp1) as [(pre1 & t1 & now1 & Hs1 & Hlen1) _].
  destruct (schedule_shape _ Hp2) as [(pre2 & t2 & now2 & Hs2 & Hlen2) _].
  eexists _, _. split_and!.
  - by apply (AggregatorSpec.dashboard_complete answers schedule1 pre1 t1 now1).
  - by apply (AggregatorSpec.dashboard_complete answers schedule2 pre2 t2 now2).
  - by intros [].
  - subst schedule1 schedule2. rewrite !fmap_app. simpl.
    rewrite !last_snoc. by intros [= ->].
Qed.

(** X13.  There is no timeout: as long as fewer than four callbacks have
    come back, whichever they are, the promise is pending and the handler
    has sent nothing. *)
Theorem dashboard_waits_for_four (answers : table -> answer)
    (schedule : list (table * string)) :
  length schedule < 4 ->
  Aggregator.settled (Aggregator.getDashboardStats answers schedule) = Pending
  ∧ Aggregator.dashboard_stats answers schedule = None.
Proof.
  intros Hlen.
  destruct (AggregatorSpec.run_pending answers schedule Aggregator.initial)
    as [Hpend _]; [done | simpl; unfold Aggregator.totalQueries; simpl; lia |].
  split; first done.
  unfold Aggregator.dashboard_stats, Aggregator.getDashboardStats. by rewrite Hpend.
Qed.

(** X14.  A summary query that succeeds with no row at all leaves its
    table out of the response: [results[0]] is [undefined], and
    [res.json] drops the key.  The status is still 200. *)
Theorem empty_result_drops_key (answers : table -> answer)
    (schedule : list (table * string)) (t : table) :
  schedule.*1 ≡ₚ tables ->
  answers t = Rows [] ->
  ∃ members,
    Aggregator.dashboard_stats answers schedule
    = Some {| status := 200; body := JObj members |}
    ∧ assoc (key t) members = undefined.
Proof.
  intros Hp Hempty.
  destruct (schedule_shape _ Hp) as [(pre & last & now & Hs & Hlen) _].
  pose proof (AggregatorSpec.dashboard_complete answers schedule pre last now
                Hp Hs Hlen) as Hfin.
  unfold Aggregator.dashboard_stats. rewrite Hfin.
  destruct (AggregatorSpec.stats_json_member
    {| Aggregator.medications :=
         head (Aggregator.stored_rows Medications (answers Medications));
       Aggregator.reminders :=
         head (Aggregator.stored_rows Reminders (answers Reminders));
       Aggregator.vitals := head (Aggregator.stored_rows Vitals (answers Vitals));
       Aggregator.appointments :=
         head (Aggregator.stored_rows Appointments (answers Appointments));
       Aggregator.lastUpdated := now |}) as (members & Hjson & Hmem).
  exists members. rewrite Hjson. split; first done.
  rewrite Hmem. destruct t; simpl; by rewrite Hempty.
Qed.

(** The exporter looks at the schedule only through the set of tables
    that have called back. *)
Lemma filled_perm {V : Type} (store : table -> V) (order1 order2 : list table) :
  order1 ≡ₚ order2 ->
  foldl (λ acc u, <[key u := store u]> acc) (∅ : gmap string V) order1
  = foldl (λ acc u, <[key u := store u]> acc) ∅ order2.
Proof.
  intros Hp. apply map_eq. intros k.
  destruct (decide (k ∈ key <$> order1)) as [Hin|Hno].
  - apply list_elem_of_fmap in Hin as (u & -> & Hin).
    rewrite !(filled_lookup store); [done | by rewrite <- Hp | done].
  - transitivity (@None V); [|symmetry]; apply not_elem_of_dom;
      rewrite (filled_dom store), dom_empty_L, (right_id_L ∅ (∪)),
        elem_of_list_to_set; [done | by rewrite <- Hp].
Qed.

(** X15.  The exported [data] does not depend on the order of the
    callbacks: for the same answers, two runs send bodies that differ at
    most in [exportedAt]. *)
Theorem export_order_independent (answers : table -> answer)
    (schedule1 schedule2 : list (table * string)) :
  schedule1.*1 ≡ₚ tables ->
  schedule2.*1 ≡ₚ tables ->
  ∃ now1 now2 d,
    Exporter.sent (Exporter.export_data answers schedule1)
    = Some {| status := 200;
              body := {| Exporter.success := true; Exporter.exportedAt := now1;
                         Exporter.data := d |} |}
    ∧ Exporter.sent (Exporter.export_data answers schedule2)
      = Some {| status := 200;
                body := {| Exporter.success := true; Exporter.exportedAt := now2;
                           Exporter.data := d |} |}.
Proof.
  intros Hp1 Hp2.
  destruct (schedule_shape _ Hp1) as [(pre1 & t1 & now1 & Hs1 & Hlen1) _].
  destruct (schedule_shape _ Hp2) as [(pre2 & t2 & now2 & Hs2 & Hlen2) _].
  exists now1, now2. eexists. split.
  - by apply (ExporterSpec.export_complete answers schedule1 pre1 t1 now1).
  - rewrite (ExporterSpec.export_complete answers schedule2 pre2 t2 now2 Hs2 Hlen2).
    by rewrite (filled_perm (λ u, Exporter.entry (answers u))
                  schedule2.*1 schedule1.*1) by (by rewrite Hp1, Hp2).
Qed.

(** X16.  The exporter has no timeout either: with fewer than four
    callbacks back, nothing has been sent. *)
Theorem export_waits_for_four (answers : table -> answer)
    (schedule : list (table * string)) :
  length schedule < 4 ->
  Exporter.sent (Exporter.export_data answers schedule) = None.
Proof.
  intros Hlen. apply (ExporterSpec.export_unsent answers); first done.
  simpl. unfold Exporter.totalQueries. simpl. lia.
Qed.

Lemma failure_is_masked_as_zero_row_witness :
  Scenario.medications_down Medications = Failed Scenario.access_denied
  ∧ Aggregator.dashboard_stats Scenario.medications_down Scenario.shuffled
    = Aggregator.dashboard_stats
        (λ u, if decide (u = Medications)
              then Rows [Aggregator.fallback Medications]
              else Scenario.medications_down u)
        Scenario.shuffled.
Proof.
  split; first reflexivity.
  by destruct (failure_is_masked_as_zero_row Scenario.medications_down
                 Scenario.shuffled Medications Scenario.access_denied eq_refl).
Defined.

Lemma dashboard_order_independent_witness :
  Scenario.shuffled.*1 ≡ₚ tables
  ∧ Sample.in_order.*1 ≡ₚ tables
  ∧ ∃ st1 st2,
      Aggregator.settled (Aggregator.getDashboardStats Sample.all_up Scenario.shuffled)
      = Fulfilled st1
      ∧ Aggregator.settled (Aggregator.getDashboardStats Sample.all_up Sample.in_order)
        = Fulfilled st2
      ∧ Aggregator.medications st1 = Aggregator.medications st2.
Proof.
  assert (Hp1 : Scenario.shuffled.*1 ≡ₚ tables) by solve_Permutation.
  assert (Hp2 : Sample.in_order.*1 ≡ₚ tables) by reflexivity.
  split; first exact Hp1. split; first exact Hp2.
  destruct (dashboard_order_independent Sample.all_up Scenario.shuffled
              Sample.in_order Hp1 Hp2) as (st1 & st2 & H1 & H2 & Hsame & _).
  exists st1, st2. split; first exact H1. split; first exact H2.
  exact (Hsame Medications).
Defined.

Lemma dashboard_waits_for_four_witness :
  length (take 3 Scenario.shuffled) < 4
  ∧ Aggregator.dashboard_stats Sample.all_up (take 3 Scenario.shuffled) = None.
Proof.
  assert (Hlen : length (take 3 Scenario.shuffled) < 4) by (simpl; lia).
  split; first exact Hlen.
  by destruct (dashboard_waits_for_four Sample.all_up (take 3 Scenario.shuffled) Hlen).
Defined.

Lemma empty_result_drops_key_witness :
  Scenario.shuffled.*1 ≡ₚ tables
  ∧ Sample.vitals_empty Vitals = Rows []
  ∧ ∃ members,
      Aggregator.dashboard_stats Sample.vitals_empty Scenario.shuffled
      = Some {| status := 200; body := JObj members |}
      ∧ assoc "vitals" members = undefined.
Proof.
  assert (Hp : Scenario.shuffled.*1 ≡ₚ tables) by solve_Permutation.
  split; first exact Hp. split; first reflexivity.
  exact (empty_result_drops_key Sample.vitals_empty Scenario.shuffled Vitals
           Hp eq_refl).
Defined.

Lemma export_order_independent_witness :
  Scenario.shuffled.*1 ≡ₚ tables
  ∧ Sample.in_order.*1 ≡ₚ tables
  ∧ ∃ now1 now2 d,
      Exporter.sent (Exporter.export_data Scenario.medications_down Scenario.shuffled)
      = Some {| status := 200;
                body := {| Exporter.success := true; Exporter.exportedAt := now1;
                           Exporter.data := d |} |}
      ∧ Exporter.sent (Exporter.export_data Scenario.medications_down Sample.in_order)
        = Some {| status := 200;
                  body := {| Exporter.success := true; Exporter.exportedAt := now2;
                             Exporter.data := d |} |}.
Proof.
  assert (Hp1 : Scenario.shuffled.*1 ≡ₚ tables) by solve_Permutation.
  assert (Hp2 : Sample.in_order.*1 ≡ₚ tables) by reflexivity.
  split; first exact Hp1. split; first exact Hp2.
  exact (export_order_independent Scenario.medications_down Scenario.shuffled
           Sample.in_order Hp1 Hp2).
Defined.

Lemma export_waits_for_four_witness :
  length (take 2 Sample.in_order) < 4
  ∧ Exporter.sent (Exporter.export_data Sample.all_up (take 2 Sample.in_order)) = None.
Proof.
  assert (Hlen : length (take 2 Sample.in_order) < 4) by (simpl; lia).
  split; first exact Hlen.
  exact (export_waits_for_four Sample.all_up (take 2 Sample.in_order) Hlen).
Defined.

End JoinEdges.

(** ** Error-handling middleware *)

Module ErrorHandlerSpec.

Import ErrorHandler.

(** A code that starts with [ER_] is not empty and is none of the two
    connectivity codes. *)
Lemma prefix_ER (c : string) :
  String.prefix "ER_" c = true ->
  String.eqb c "" = false
  ∧ String.eqb c "ECONNREFUSED" = false
  ∧ String.eqb c "PROTOCOL_CONNECTION_LOST" = false.
Proof.
  intros Hpre.
  destruct c as [|a1 [|a2 [|a3 c]]]; cbn [String.prefix] in Hpre;
    repeat (destruct (Ascii.ascii_dec _ _) as [<-|] in Hpre; try discriminate);
    try discriminate.
  done.
Qed.

(** X17.  The status depends on the error code alone, and the two tests
    cannot both hold, so their order does not matter: 503 exactly for
    [ECONNREFUSED] and [PROTOCOL_CONNECTION_LOST], 400 exactly for a code
    that starts with [ER_], and 500 for everything else, a missing code
    included. *)
Theorem status_by_code (node_env : option string) (f : failure) :
  (status (handle node_env f) = 503
   ↔ code (cause f) = Some "ECONNREFUSED"
     ∨ code (cause f) = Some "PROTOCOL_CONNECTION_LOST")
  ∧ (status (handle node_env f) = 400
     ↔ ∃ c, code (cause f) = Some c ∧ String.prefix "ER_" c = true)
  ∧ (status (handle node_env f) = 500
     ↔ unavailable (cause f) = false ∧ mysql_error (cause f) = false).
Proof.
  unfold handle, unavailable, mysql_error.
  destruct (code (cause f)) as [c|]; simpl.
  - destruct (String.prefix "ER_" c) eqn:Hpre.
    + destruct (prefix_ER c Hpre) as (-> & -> & ->). simpl.
      split_and!; split; try done; try by eauto.
      * by intros [[= ->]|[= ->]].
      * by intros [].
    + rewrite andb_false_r.
      destruct (String.eqb_spec c "ECONNREFUSED") as [->|Hr]; simpl.
      { split_and!; split; try done; try by eauto.
        - by intros (c & [= <-] & ?).
        - by intros []. }
      destruct (String.eqb_spec c "PROTOCOL_CONNECTION_LOST") as [->|Hl]; simpl.
      { split_and!; split; try done; try by eauto.
        - by intros (c & [= <-] & ?).
        - by intros []. }
      split_and!; split; try done.
      * intros [[= ->]|[= ->]]; done.
      * intros (c' & [= <-] & ?). congruence.
  - split_and!; split; try done.
    + by intros [|].
    + by intros (c & ? & _).
Qed.

(** X18.  Outside development mode the response never carries the stack,
    and for an error answered with 500 it carries the fixed message
    instead of the error's own. *)
Theorem no_details_outside_development (node_env : option string) (f : failure) :
  development node_env = false ->
  ∃ members,
    body (handle node_env f) = JObj members
    ∧ assoc "stack" members = undefined
    ∧ (status (handle node_env f) = 500 ->
       members = [("error", JStr "Internal server error");
                  ("message", JStr "Something went wrong!")]).
Proof.
  intros Hdev. unfold handle. rewrite Hdev.
  destruct (unavailable (cause f)); simpl.
  - eexists. split; first done. by split.
  - destruct (mysql_error (cause f)); simpl.
    + eexists. split; first done. split; last done.
      by destruct (code (cause f)).
    + eexists. split; first done. by split.
Qed.

Lemma no_details_outside_development_witness :
  development (Some "production") = false
  ∧ body (handle (Some "production")
            {| cause := Sample.type_error; stack := Some "TypeError: at handler" |})
    = JObj [("error", JStr "Internal server error");
            ("message", JStr "Something went wrong!")].
Proof.
  split; first reflexivity.
  destruct (no_details_outside_development (Some "production")
              {| cause := Sample.type_error; stack := Some "TypeError: at handler" |}
              eq_refl) as (members & Hbody & _ & Hfixed).
  rewrite Hbody. f_equal. by apply Hfixed.
Defined.

End ErrorHandlerSpec.

(** ** Process life cycle *)

Module LifecycleSpec.

Import Lifecycle.

(** The books of one turn of the event loop. *)
Lemma step_accounts (ev : event) (p p' : process) :
  step ev p = Some p' ->
  chains p' + (if connects ev then 1 else 0)
  = chains p + (if starts_chain ev then 1 else 0)
  ∧ verifications p' = verifications p + (if connects ev then 1 else 0)
  ∧ ending p' + (if ends ev then 1 else 0)
    = ending p + (if asks_shutdown ev then 1 else 0)
  ∧ (Forall (λ delay, delay = 5000) (timers p) ->
     Forall (λ delay, delay = 5000) (timers p')).
Proof.
  unfold step, chains. destruct (exited p); first done.
  destruct ev as [[err|]| |err|state|sig| | |err|err]; simpl.
  - destruct (connecting p) eqn:Hc; intros [= <-]; simpl.
    rewrite length_app. simpl. split_and!; try lia.
    intros Hall. apply Forall_app. by split; [|repeat constructor].
  - destruct (connecting p) eqn:Hc; intros [= <-]; simpl.
    split_and!; (lia || done).
  - destruct (timers p) eqn:Ht; intros [= <-]; simpl.
    split_and!; try lia. by inversion 1.
  - unfold Supervisor.on_error.
    destruct (Supervisor.lost_connection err); intros [= <-]; simpl;
      split_and!; (lia || done).
  - destruct (Health.connected state); intros [= <-]; simpl;
      split_and!; (lia || done).
  - intros [= <-]; simpl; split_and!; (lia || done).
  - intros [= <-]; simpl; split_and!; (lia || done).
  - intros [= <-]; simpl; split_and!; (lia || done).
  - destruct (ending p) eqn:He; intros [= <-]; simpl; split_and!; (lia || done).
  - intros [= <-]; simpl; split_and!; (lia || done).
Qed.

(** X19.  Reconnect chains are conserved and never merged: over any run,
    every lost-connection error and every liveness tick that does not
    read [connected] adds one chain (a connect under way or a pending
    retry), and only a successful connect ends one.  Each successful
    connect calls [verifyTables] once, and every retry timer is set to
    5000 ms, however many attempts have failed. *)
Theorem reconnect_chains_are_conserved (evs : list event) (p p' : process) :
  run evs p = Some p' ->
  chains p' + length (List.filter connects evs)
  = chains p + length (List.filter starts_chain evs)
  ∧ verifications p' = verifications p + length (List.filter connects evs)
  ∧ (Forall (λ delay, delay = 5000) (timers p) ->
     Forall (λ delay, delay = 5000) (timers p')).
Proof.
  revert p. induction evs as [|ev evs IH]; intros p; simpl.
  - intros [= <-]. split_and!; (lia || done).
  - destruct (step ev p) as [p1|] eqn:Hstep; simpl; last done.
    intros Hrun. destruct (IH p1 Hrun) as (Hchains & Hver & Hdelay).
    destruct (step_accounts ev p p1 Hstep) as (Hc1 & Hv1 & _ & Hd1).
    destruct (connects ev), (starts_chain ev); simpl;
      split_and!; try lia; by auto.
Qed.

(** Nothing happens after [process.exit]. *)
Lemma run_exited (evs : list event) (p p' : process) :
  run evs p = Some p' -> is_Some (exited p) -> evs = [] ∧ p' = p.
Proof.
  destruct evs as [|ev evs]; simpl.
  - by intros [= <-].
  - intros Hrun [c Hc]. unfold step in Hrun. by rewrite Hc in Hrun.
Qed.

(** The event that made the process exit. *)
Lemma exit_event (evs : list event) (p p' : process) (c : nat) :
  run evs p = Some p' ->
  exited p = None ->
  exited p' = Some c ->
  ∃ pre ev,
    evs = pre ++ [ev]
    ∧ ((∃ err, ev = EndCallback err ∧ c = match err with Some _ => 1 | None => 0 end)
       ∨ (∃ err, ev = ServerError err ∧ c = 1)).
Proof.
  revert p. induction evs as [|ev evs IH]; intros p; simpl.
  - intros [= <-] Hp Hp'. congruence.
  - destruct (step ev p) as [p1|] eqn:Hstep; simpl; last done.
    intros Hrun Hp Hp'.
    destruct (exited p1) as [c1|] eqn:Hp1.
    + destruct (run_exited evs p1 p' Hrun) as [-> ->]; first by eauto.
      exists [], ev. split; first done.
      assert (c1 = c) as -> by congruence.
      unfold step in Hstep. rewrite Hp in Hstep.
      destruct ev as [[err|]| |err|state|sig| | |err|err]; simpl in Hstep;
        repeat case_match; simplify_eq; simpl in *; simplify_eq;
        try congruence; by eauto.
    + destruct (IH p1 Hrun Hp1 Hp') as (pre & ev' & -> & Hev).
      by exists (ev :: pre), ev'.
Qed.

(** X20.  The process exits only in the callback of [db.end] or on a
    server error, and that is the last thing it does: the exit code is 0
    exactly when [db.end] called back without an error, and 1 otherwise.
    A signal or an uncaught exception alone does not end the process. *)
Theorem exit_is_last_and_from_end_callback (evs : list event) (p p' : process)
    (c : nat) :
  run evs p = Some p' ->
  exited p = None ->
  exited p' = Some c ->
  ∃ pre ev,
    evs = pre ++ [ev]
    ∧ ((∃ err, ev = EndCallback err ∧ c = match err with Some _ => 1 | None => 0 end)
       ∨ (∃ err, ev = ServerError err ∧ c = 1)).
Proof. apply exit_event. Qed.

Lemma run_ending (evs : list event) (p p' : process) :
  run evs p = Some p' ->
  ending p' + length (List.filter ends evs)
  = ending p + length (List.filter asks_shutdown evs).
Proof.
  revert p. induction evs as [|ev evs IH]; intros p; simpl.
  - intros [= <-]. lia.
  - destruct (step ev p) as [p1|] eqn:Hstep; simpl; last done.
    intros Hrun. pose proof (IH p1 Hrun) as Hrest.
    destruct (step_accounts ev p p1 Hstep) as (_ & _ & Hone & _).
    destruct (ends ev), (asks_shutdown ev); simpl; lia.
Qed.

Lemma filter_nonempty {A} (f : A -> bool) (l : list A) :
  0 < length (List.filter f l) -> Exists (λ x, f x = true) l.
Proof.
  induction l as [|x l IH]; simpl; first lia.
  destruct (f x) eqn:Hx; [by left | right; by apply IH].
Qed.

(** X21.  An exit with code 0 is always the end of a shutdown that some
    handler asked for: a signal, an uncaught exception, an unhandled
    rejection, or a connection error with an unrecognised code.  The code
    0 does not tell these apart: a crash that closes the connection
    cleanly exits like a requested stop. *)
Theorem clean_exit_follows_shutdown_request (evs : list event) (p p' : process) :
  run evs p = Some p' ->
  exited p = None ->
  ending p = 0 ->
  exited p' = Some 0 ->
  Exists (λ ev, asks_shutdown ev = true) evs.
Proof.
  intros Hrun Hp Hending Hp'.
  destruct (exit_event evs p p' 0 Hrun Hp Hp')
    as (pre & ev & -> & [(err & -> & Hc)|(err & -> & Hc)]); last done.
  pose proof (run_ending _ _ _ Hrun) as Hbooks.
  apply filter_nonempty.
  rewrite List.filter_app, length_app in Hbooks. simpl in Hbooks. lia.
Qed.

Lemma reconnect_chains_are_conserved_witness :
  ∃ p',
    run [ConnectCallback (Some Sample.connection_refused); LivenessTick None;
         RetryTimer; ConnectCallback None] started = Some p'
    ∧ chains p' = 1
    ∧ verifications p' = 1.
Proof.
  eexists. split; first reflexivity.
  destruct (reconnect_chains_are_conserved
              [ConnectCallback (Some Sample.connection_refused); LivenessTick None;
               RetryTimer; ConnectCallback None] started _ eq_refl)
    as (Hchains & Hver & _).
  simpl in Hchains, Hver. split; [cbn in *; lia | exact Hver].
Defined.

Lemma exit_is_last_and_from_end_callback_witness :
  ∃ p',
    run [Signal SIGTERM; EndCallback None] started = Some p'
    ∧ exited p' = Some 0
    ∧ ∃ pre ev, [Signal SIGTERM; EndCallback None] = pre ++ [ev].
Proof.
  eexists. split; first reflexivity. split; first reflexivity.
  destruct (exit_is_last_and_from_end_callback
              [Signal SIGTERM; EndCallback None] started _ 0 eq_refl eq_refl eq_refl)
    as (pre & ev & Hsplit & _).
  by exists pre, ev.
Defined.

Lemma clean_exit_follows_shutdown_request_witness :
  ∃ p',
    run [ConnectionError Scenario.parse_error; EndCallback None] started = Some p'
    ∧ exited p' = Some 0
    ∧ Exists (λ ev, asks_shutdown ev = true)
        [ConnectionError Scenario.parse_error; EndCallback None].
Proof.
  eexists. split; first reflexivity. split; first reflexivity.
  exact (clean_exit_follows_shutdown_request
           [ConnectionError Scenario.parse_error; EndCallback None] started _
           eq_refl eq_refl eq_refl eq_refl).
Defined.

End LifecycleSpec.
